(** * FinanceCalendar: the contract amortisation and interest engine

    A shallow embedding of [database_manager.py] (class [DatabaseManager]):
    the deposit ledger and the contract settings kept in SQLite, the
    monthly plan allocator, the effective-rate lookup and the daily
    compounding interest simulation.

    Conventions of the embedding.
    - Python [float] amounts and rates are exact rationals ([Q]); the
      rounding of binary floating point is not represented.
    - [QDate] (PySide6.QtCore) is outside the repository.  Its proleptic
      Gregorian calendar is modelled on year/month/day triples, with the
      null date that Qt uses for every invalid date.
    - [QDate.currentDate()] is the explicit argument [today].
    - A Python [while] loop is a function recursive on a fuel counter; a
      call answers [Ok v], [Raised e] for a Python exception, or
      [OutOfFuel]. *)

From Stdlib Require Import ZArith QArith Qminmax Lia Lqa String Ascii List Bool Sorted.
From stdpp Require Import gmap strings list fin_maps.

#[local] Open Scope Z_scope.

(** ** Outcomes of a call *)

Inductive exn : Type := ZeroDivisionError.

Inductive res (A : Type) : Type :=
| Ok (a : A)
| Raised (e : exn)
| OutOfFuel.

Arguments Ok {A} a.
Arguments Raised {A} e.
Arguments OutOfFuel {A}.

Definition bind {A B : Type} (r : res A) (k : A -> res B) : res B :=
  match r with
  | Ok a => k a
  | Raised e => Raised e
  | OutOfFuel => OutOfFuel
  end.

Notation "'do' x <- r ; k" := (bind r (fun x => k))
  (at level 10, x name, r at level 100, k at level 200).

(** ** Rational arithmetic as Python uses it *)

Definition Qgtb (a b : Q) : bool := negb (Qle_bool a b).

(** [a / b] on floats: division by zero raises. *)
Definition py_div (a b : Q) : res Q :=
  if Qeq_bool b 0 then Raised ZeroDivisionError else Ok (a / b)%Q.

(** [max(0, x)]: the second argument is returned only when it is greater. *)
Definition py_max0 (x : Q) : Q := if Qgtb x 0 then x else 0%Q.

(** ** QDate *)

Inductive QDate : Type :=
| NullDate
| Date (y m d : Z).

Definition isLeapYear (y : Z) : bool :=
  let y := if y <? 1 then y + 1 else y in
  (y mod 4 =? 0) && (negb (y mod 100 =? 0) || (y mod 400 =? 0)).

Definition monthDays (y m : Z) : Z :=
  if m =? 2 then (if isLeapYear y then 29 else 28)
  else if (m =? 4) || (m =? 6) || (m =? 9) || (m =? 11) then 30
  else if (1 <=? m) && (m <=? 12) then 31
  else 0.

Definition validYMD (y m d : Z) : bool :=
  negb (y =? 0) && (1 <=? m) && (m <=? 12) && (1 <=? d) && (d <=? monthDays y m).

(** The constructor [QDate(y, m, d)]. *)
Definition mkQDate (y m d : Z) : QDate :=
  if validYMD y m d then Date y m d else NullDate.

Definition isValid (q : QDate) : bool :=
  match q with
  | NullDate => false
  | Date y m d => validYMD y m d
  end.

Definition year (q : QDate) : Z :=
  match q with NullDate => 0 | Date y _ _ => y end.

Definition month (q : QDate) : Z :=
  match q with NullDate => 0 | Date _ m _ => m end.

Definition day (q : QDate) : Z :=
  match q with NullDate => 0 | Date _ _ d => d end.

Definition daysInMonth (q : QDate) : Z :=
  match q with NullDate => 0 | Date y m _ => monthDays y m end.

Definition daysInYear (q : QDate) : Z :=
  match q with
  | NullDate => 0
  | Date y _ _ => if isLeapYear y then 366 else 365
  end.

(** Qt compares Julian day numbers; the null date carries the least one. *)
Definition date_ltb (a b : QDate) : bool :=
  match a, b with
  | _, NullDate => false
  | NullDate, Date _ _ _ => true
  | Date y m d, Date y' m' d' =>
      (y <? y') || ((y =? y') && ((m <? m') || ((m =? m') && (d <? d'))))
  end.

Definition date_leb (a b : QDate) : bool := negb (date_ltb b a).
Definition date_gtb (a b : QDate) : bool := date_ltb b a.
Definition date_geb (a b : QDate) : bool := negb (date_ltb a b).

Declare Scope qdate_scope.
Delimit Scope qdate_scope with qdate.
Infix "<?" := date_ltb : qdate_scope.
Infix "<=?" := date_leb : qdate_scope.
Infix ">?" := date_gtb : qdate_scope.
Infix ">=?" := date_geb : qdate_scope.

(** [min(a, b)] of Python on dates. *)
Definition date_min (a b : QDate) : QDate := if date_ltb b a then b else a.

(** The date of year [y], month [m] with the day [d] cut down to the
    length of the month (what Qt calls a fixed date). *)
Definition fixedDate (y m d : Z) : QDate :=
  mkQDate y m (Z.min d (monthDays y m)).

(** Years are counted without a year 0: -1 is followed by 1. *)
Definition astro (y : Z) : Z := if y <? 0 then y + 1 else y.
Definition civil (a : Z) : Z := if a <=? 0 then a - 1 else a.

Definition addMonths (n : Z) (q : QDate) : QDate :=
  match q with
  | NullDate => NullDate
  | Date y m d =>
      if negb (isValid q) then NullDate
      else if n =? 0 then q
      else
        let t := astro y * 12 + (m - 1) + n in
        fixedDate (civil (t / 12)) (t mod 12 + 1) d
  end.

Definition addYears (n : Z) (q : QDate) : QDate :=
  match q with
  | NullDate => NullDate
  | Date y m d =>
      if negb (isValid q) then NullDate
      else
        let y1 := y + n in
        let y2 := if (0 <? y) && (y1 <=? 0) then y1 - 1
                  else if (y <? 0) && (0 <=? y1) then y1 + 1
                  else y1 in
        fixedDate y2 m d
  end.

(** [addDays(1)]. *)
Definition nextDay (q : QDate) : QDate :=
  match q with
  | NullDate => NullDate
  | Date y m d =>
      if negb (isValid q) then NullDate
      else if d <? monthDays y m then Date y m (d + 1)
      else if m <? 12 then Date y (m + 1) 1
      else Date (civil (astro y + 1)) 1 1
  end.

(** [addDays(n)] for the non-negative [n] the engine uses. *)
Definition addDays (n : nat) (q : QDate) : QDate := Nat.iter n nextDay q.

(** *** Text forms of a date *)

Definition digit_char (n : Z) : ascii := ascii_of_nat (48 + Z.to_nat n).

Definition digit_val (c : ascii) : option Z :=
  let n := Z.of_nat (nat_of_ascii c) in
  if (48 <=? n) && (n <=? 57) then Some (n - 48) else None.

(** The [w] low decimal digits of [n], most significant first. *)
Fixpoint digits (w : nat) (n : Z) : string :=
  match w with
  | O => EmptyString
  | S w' => String (digit_char ((n / 10 ^ Z.of_nat w') mod 10)) (digits w' n)
  end.

Fixpoint ndigits_aux (fuel : nat) (n : Z) : nat :=
  match fuel with
  | O => 1%nat
  | S fuel' => if n <? 10 then 1%nat else S (ndigits_aux fuel' (n / 10))
  end.

Definition ndigits (n : Z) : nat := ndigits_aux (Z.to_nat (Z.log2 n)) n.

(** A number written with at least [w] digits, zero padded. *)
Definition zero_padded (w : nat) (n : Z) : string :=
  digits (Nat.max w (ndigits n)) n.

Definition yyyy (y : Z) : string :=
  String.append (if y <? 0 then "-"%string else EmptyString)
                (zero_padded 4 (Z.abs y)).

Inductive date_format : Type :=
| yyyy_MM_dd     (* 'yyyy-MM-dd' *)
| yyyy_MM        (* 'yyyy-MM' *)
| dd_MM_yyyy.    (* 'dd.MM.yyyy' *)

Definition toString (q : QDate) (f : date_format) : string :=
  match q with
  | NullDate => EmptyString
  | Date y m d =>
      if negb (isValid q) then EmptyString else
      match f with
      | yyyy_MM_dd =>
          yyyy y +:+ "-" +:+ zero_padded 2 m +:+ "-" +:+ zero_padded 2 d
      | yyyy_MM =>
          yyyy y +:+ "-" +:+ zero_padded 2 m
      | dd_MM_yyyy =>
          zero_padded 2 d +:+ "." +:+ zero_padded 2 m +:+ "." +:+ yyyy y
      end
  end.

Definition number2 (a b : ascii) : option Z :=
  match digit_val a, digit_val b with
  | Some x, Some y => Some (10 * x + y)
  | _, _ => None
  end.

Definition number4 (a b c d : ascii) : option Z :=
  match number2 a b, number2 c d with
  | Some x, Some y => Some (100 * x + y)
  | _, _ => None
  end.

Definition date_of_fields (y m d : option Z) : QDate :=
  match y, m, d with
  | Some y, Some m, Some d => mkQDate y m d
  | _, _, _ => NullDate
  end.

(** [QDate.fromString(text, format)]: the text has to be exactly of the
    form of the format, anything else gives the null date. *)
Definition fromString (s : string) (f : date_format) : QDate :=
  match f, s with
  | yyyy_MM_dd,
    String y1 (String y2 (String y3 (String y4 (String "-"
      (String m1 (String m2 (String "-" (String d1 (String d2 EmptyString))))))))) =>
      date_of_fields (number4 y1 y2 y3 y4) (number2 m1 m2) (number2 d1 d2)
  | dd_MM_yyyy,
    String d1 (String d2 (String "."
      (String m1 (String m2 (String "." (String y1 (String y2 (String y3 (String y4 EmptyString))))))))) =>
      date_of_fields (number4 y1 y2 y3 y4) (number2 m1 m2) (number2 d1 d2)
  | _, _ => NullDate
  end.

(** ** The SQLite store *)

(** One entry of [rate_history]: the dict [{'date': 'dd.MM.yyyy', 'rate': r}]. *)
Record rate_change : Type := { date : string; rate : Q }.

(** The dict handled by [save_contract_settings] and [get_contract_settings]. *)
Record contract_settings : Type := {
  start_date : QDate;
  end_date : QDate;
  initial_rate : Q;
  rate_history : list rate_change;
  contract_amount : Q
}.

(** [json.dumps] and [json.loads] of the Python library.  The characters
    of the document are not represented: a document is the list it
    encodes, which is what [json.loads] reads back from it. *)
Inductive json_text : Type := JsonText (v : list rate_change).

Definition json_dumps (v : list rate_change) : json_text := JsonText v.
Definition json_loads (t : json_text) : list rate_change :=
  match t with JsonText v => v end.

(** A row of table [contract_settings], columns 0 to 5 (the two
    timestamps are never read). *)
Record settings_row : Type := {
  col_id : Z;
  col_start_date : string;
  col_end_date : string;
  col_initial_rate : Q;
  col_rate_history : json_text;
  col_contract_amount : Q
}.

(** The database file: table [daily_data] as its rows [(date, amount)]
    in rowid order, table [contract_settings] and its AUTOINCREMENT
    counter. *)
Record database : Type := {
  daily_data : list (string * Q);
  settings_table : list settings_row;
  settings_seq : Z
}.

Definition init_database : database :=
  {| daily_data := []; settings_table := []; settings_seq := 0 |}.

(** [DELETE FROM daily_data WHERE date = ?] *)
Definition delete_daily (key : string) (rows : list (string * Q)) : list (string * Q) :=
  List.filter (fun r => negb (String.eqb (fst r) key)) rows.

Definition save_daily_amount (d : QDate) (amount : Q) (db : database) : database :=
  let key := toString d yyyy_MM_dd in
  let rows :=
    if Qeq_bool amount 0 then delete_daily key (daily_data db)
    else (* INSERT OR REPLACE: the row in conflict goes, a new one is added *)
      delete_daily key (daily_data db) ++ [(key, amount)] in
  {| daily_data := rows;
     settings_table := settings_table db;
     settings_seq := settings_seq db |}.

Definition get_daily_amount (d : QDate) (db : database) : Q :=
  let key := toString d yyyy_MM_dd in
  match List.find (fun r => String.eqb (fst r) key) (daily_data db) with
  | Some result => snd result
  | None => 0%Q
  end.

(** [{row[0]: row[1] for row in cursor.fetchall()}] *)
Definition get_all_daily_data (db : database) : gmap string Q :=
  fold_left (fun m row => <[fst row := snd row]> m) (daily_data db) ∅.

Definition save_contract_settings (contract_data : contract_settings)
    (db : database) : database :=
  let start_date := toString (start_date contract_data) yyyy_MM_dd in
  let end_date := toString (end_date contract_data) yyyy_MM_dd in
  let rate_history_json := json_dumps (rate_history contract_data) in
  let id := settings_seq db + 1 in
  {| daily_data := daily_data db;
     settings_table :=
       (* DELETE FROM contract_settings, then INSERT *)
       [] ++ [ {| col_id := id;
                  col_start_date := start_date;
                  col_end_date := end_date;
                  col_initial_rate := initial_rate contract_data;
                  col_rate_history := rate_history_json;
                  col_contract_amount := contract_amount contract_data |} ];
     settings_seq := id |}.

(** [SELECT * FROM contract_settings ORDER BY id DESC LIMIT 1] *)
Definition latest_row (rows : list settings_row) : option settings_row :=
  fold_left
    (fun best r =>
       match best with
       | Some b => if col_id b <? col_id r then Some r else Some b
       | None => Some r
       end)
    rows None.

Definition get_contract_settings (today : QDate) (db : database) : contract_settings :=
  match latest_row (settings_table db) with
  | Some result =>
      {| start_date := fromString (col_start_date result) yyyy_MM_dd;
         end_date := fromString (col_end_date result) yyyy_MM_dd;
         initial_rate := col_initial_rate result;
         rate_history := json_loads (col_rate_history result);
         contract_amount := col_contract_amount result |}
  | None =>
      {| start_date := today;
         end_date := addYears 1 today;
         initial_rate := 0;
         rate_history := [];
         contract_amount := 0 |}
  end.

(** ** Effective rate *)

(** [sorted(l, key=...)] is a stable sort; it is taken as the insertion
    sort that puts an element before the first one that is not smaller
    than it, which keeps equal keys in their order. *)
Fixpoint insert_sorted {A : Type} (key : A -> QDate) (x : A) (l : list A) : list A :=
  match l with
  | [] => [x]
  | y :: l' =>
      if date_ltb (key y) (key x) then y :: insert_sorted key x l'
      else x :: y :: l'
  end.

Fixpoint sorted {A : Type} (key : A -> QDate) (l : list A) : list A :=
  match l with
  | [] => []
  | x :: l' => insert_sorted key x (sorted key l')
  end.

Definition change_date (rc : rate_change) : QDate :=
  fromString (date rc) dd_MM_yyyy.

(** The [for ... else: break] scan over the sorted history. *)
Fixpoint scan_rates (d : QDate) (history : list rate_change) (effective_rate : Q) : Q :=
  match history with
  | [] => effective_rate
  | rc :: rest =>
      if date_leb (change_date rc) d then scan_rates d rest (rate rc)
      else effective_rate
  end.

Definition get_effective_rate_on_date (d : QDate) (cs : contract_settings) : Q :=
  let effective_rate := initial_rate cs in
  let rate_history := sorted change_date (rate_history cs) in
  scan_rates d rate_history effective_rate.

(** ** Monthly plan *)

Definition _get_months_between_dates_including_start_excluding_end
    (start_date end_date : QDate) : Z :=
  let total_months :=
    (year end_date - year start_date) * 12 + month end_date - month start_date in
  Z.max 1 total_months.

(** The sum of the deposits whose key starts with [month_key]. *)
Definition monthly_fact (daily_data : gmap string Q) (month_key : string) : Q :=
  map_fold
    (fun date_key amount acc =>
       if String.prefix month_key date_key then (acc + amount)%Q else acc)
    0%Q daily_data.

Definition adjusted_plan (base_monthly_amount cumulative_fact : Q) (month_index : Z) : Q :=
  let target_cumulative_plan := (base_monthly_amount * inject_Z month_index)%Q in
  if Qgtb cumulative_fact target_cumulative_plan then
    py_max0 (base_monthly_amount - (cumulative_fact - target_cumulative_plan))%Q
  else base_monthly_amount.

(** The state of the [while current_date < end_date] loop. *)
Record plan_state : Type := {
  current_date : QDate;
  month_index : Z;
  cumulative_fact : Q;
  monthly_plans : gmap string Q
}.

Definition is_closing_month (current_date end_date : QDate) : bool :=
  (year current_date =? year end_date) && (month current_date =? month end_date).

Definition plan_month (base_monthly_amount : Q) (daily_data : gmap string Q)
    (s : plan_state) : plan_state :=
  let month_key := toString (current_date s) yyyy_MM in
  let month_index := month_index s + 1 in
  let cumulative_fact := (cumulative_fact s + monthly_fact daily_data month_key)%Q in
  {| current_date := addMonths 1 (current_date s);
     month_index := month_index;
     cumulative_fact := cumulative_fact;
     monthly_plans :=
       <[month_key := adjusted_plan base_monthly_amount cumulative_fact month_index]>
         (monthly_plans s) |}.

Fixpoint plans_loop (fuel : nat) (end_date : QDate) (base_monthly_amount : Q)
    (daily_data : gmap string Q) (s : plan_state) : res (gmap string Q) :=
  match fuel with
  | O => OutOfFuel
  | S fuel' =>
      if date_ltb (current_date s) end_date then
        if is_closing_month (current_date s) end_date then
          plans_loop fuel' end_date base_monthly_amount daily_data
            {| current_date := addMonths 1 (current_date s);
               month_index := month_index s;
               cumulative_fact := cumulative_fact s;
               monthly_plans := monthly_plans s |}
        else
          plans_loop fuel' end_date base_monthly_amount daily_data
            (plan_month base_monthly_amount daily_data s)
      else Ok (monthly_plans s)
  end.

Definition calculate_monthly_plans (fuel : nat) (today : QDate) (db : database)
    : res (gmap string Q) :=
  let contract_settings := get_contract_settings today db in
  let start_date := start_date contract_settings in
  let end_date := end_date contract_settings in
  let total_amount := contract_amount contract_settings in
  if Qeq_bool total_amount 0 then Ok ∅
  else
    let months_count :=
      _get_months_between_dates_including_start_excluding_end start_date end_date in
    if months_count =? 0 then Ok ∅
    else
      do base_monthly_amount <- py_div total_amount (inject_Z months_count);
      let daily_data := get_all_daily_data db in
      plans_loop fuel end_date base_monthly_amount daily_data
        {| current_date := mkQDate (year start_date) (month start_date) 1;
           month_index := 0;
           cumulative_fact := 0;
           monthly_plans := ∅ |}.

(** ** Monthly interest with daily capitalisation *)

(** The accrual date of month [(year, month)]: the day of the contract,
    or the last day of the month when that day does not exist. *)
Definition accrual_date_of (start_date : QDate) (year month : Z) : QDate :=
  let contract_day := day start_date in
  let accrual_date := mkQDate year month contract_day in
  if negb (isValid accrual_date) then
    let last_day := daysInMonth (mkQDate year month 1) in
    mkQDate year month last_day
  else accrual_date.

Definition target_period_start_of (start_date accrual_date : QDate) : QDate :=
  let target_period_start := addMonths (-1) accrual_date in
  if date_ltb target_period_start start_date then start_date
  else target_period_start.

Definition simulation_end_date_of (accrual_date today : QDate) : QDate :=
  date_min accrual_date today.

(** The state of the [while iter_date < simulation_end_date] loop. *)
Record sim_state : Type := {
  iter_date : QDate;
  current_balance : Q;
  interest_for_target_period : Q
}.

(** [(current_balance * rate / 100.0) / days_in_year] *)
Definition daily_interest_of (cs : contract_settings) (iter_date : QDate)
    (current_balance : Q) : res Q :=
  let rate := get_effective_rate_on_date iter_date cs in
  let days_in_year := daysInYear iter_date in
  py_div (current_balance * rate / 100)%Q (inject_Z days_in_year).

(** Step A of a day: interest on the balance at the start of the day is
    added to the balance, and to the result when the day is in the
    target period. *)
Definition capitalize (cs : contract_settings) (target_period_start : QDate)
    (s : sim_state) : res sim_state :=
  if Qgtb (current_balance s) 0 then
    do daily_interest <- daily_interest_of cs (iter_date s) (current_balance s);
    Ok {| iter_date := iter_date s;
          current_balance := (current_balance s + daily_interest)%Q;
          interest_for_target_period :=
            if date_geb (iter_date s) target_period_start
            then (interest_for_target_period s + daily_interest)%Q
            else interest_for_target_period s |}
  else Ok s.

(** Step B of a day: the deposit of the day joins the balance; then the
    loop moves to the next day. *)
Definition deposit_and_advance (all_payments : gmap string Q) (day_str : string)
    (s : sim_state) : sim_state :=
  {| iter_date := addDays 1 (iter_date s);
     current_balance :=
       match all_payments !! day_str with
       | Some payment => (current_balance s + payment)%Q
       | None => current_balance s
       end;
     interest_for_target_period := interest_for_target_period s |}.

Definition simulate_day (cs : contract_settings) (all_payments : gmap string Q)
    (target_period_start : QDate) (s : sim_state) : res sim_state :=
  let day_str := toString (iter_date s) yyyy_MM_dd in
  do s' <- capitalize cs target_period_start s;
  Ok (deposit_and_advance all_payments day_str s').

Fixpoint interest_loop (fuel : nat) (cs : contract_settings)
    (all_payments : gmap string Q) (target_period_start simulation_end_date : QDate)
    (s : sim_state) : res Q :=
  match fuel with
  | O => OutOfFuel
  | S fuel' =>
      if date_ltb (iter_date s) simulation_end_date then
        do s' <- simulate_day cs all_payments target_period_start s;
        interest_loop fuel' cs all_payments target_period_start simulation_end_date s'
      else Ok (interest_for_target_period s)
  end.

Definition calculate_monthly_interest (fuel : nat) (today : QDate) (db : database)
    (year month : Z) : res Q :=
  let contract_settings := get_contract_settings today db in
  let start_date := start_date contract_settings in
  let current_date_real := today in
  let accrual_date := accrual_date_of start_date year month in
  if date_leb accrual_date start_date then Ok 0%Q
  else
    let target_period_start := target_period_start_of start_date accrual_date in
    let simulation_end_date := simulation_end_date_of accrual_date current_date_real in
    if date_geb target_period_start simulation_end_date then Ok 0%Q
    else
      let all_payments := get_all_daily_data db in
      interest_loop fuel contract_settings all_payments
        target_period_start simulation_end_date
        {| iter_date := start_date;
           current_balance := 0;
           interest_for_target_period := 0 |}.

(** ** Accumulated interest *)

Fixpoint total_interest_loop (fuel : nat) (monthly_interest : Z -> Z -> res Q)
    (up_to_date current_check_date : QDate) (total_interest : Q) : res Q :=
  match fuel with
  | O => OutOfFuel
  | S fuel' =>
      if date_leb current_check_date (addMonths 1 up_to_date) then
        let year := year current_check_date in
        let month := month current_check_date in
        if date_gtb (mkQDate year month 1) up_to_date
           && date_gtb current_check_date up_to_date
        then Ok total_interest
        else
          do interest <- monthly_interest year month;
          total_interest_loop fuel' monthly_interest up_to_date
            (addMonths 1 current_check_date) (total_interest + interest)%Q
      else Ok total_interest
  end.

Definition get_total_accumulated_interest (fuel : nat) (today : QDate)
    (db : database) (up_to_date : option QDate) : res Q :=
  let up_to_date :=
    match up_to_date with Some d => d | None => today end in
  let contract_settings := get_contract_settings today db in
  let start_date := start_date contract_settings in
  if date_leb up_to_date start_date then Ok 0%Q
  else
    total_interest_loop fuel (calculate_monthly_interest fuel today db)
      up_to_date (addMonths 1 start_date) 0.

(** ** Manual monthly plans (table [monthly_plans]) *)

(** [INSERT OR REPLACE INTO monthly_plans (month_key, plan_amount, ...)]
    on the rows [(month_key, plan_amount)] of the table. *)
Definition save_monthly_plan (month_key : string) (plan_amount : Q)
    (rows : list (string * Q)) : list (string * Q) :=
  List.filter (fun r => negb (String.eqb (fst r) month_key)) rows
  ++ [(month_key, plan_amount)].

Definition get_monthly_plan (month_key : string) (rows : list (string * Q)) : Q :=
  match List.find (fun r => String.eqb (fst r) month_key) rows with
  | Some result => snd result
  | None => 0%Q
  end.

Definition get_all_monthly_plans (rows : list (string * Q)) : gmap string Q :=
  fold_left (fun m row => <[fst row := snd row]> m) rows ∅.

(** ** Helpers on months *)

Definition _get_months_between_dates_excluding_end (start_date end_date : QDate) : Z :=
  let total_months :=
    (year end_date - year start_date) * 12 + month end_date - month start_date in
  Z.max 0 total_months.

Definition _get_month_index (current_date start_date : QDate) : Z :=
  (year current_date - year start_date) * 12
  + month current_date - month start_date + 1.

(** ** Remaining amount *)

(** [sum(daily_data.values())] *)
Definition sum_values (daily_data : gmap string Q) : Q :=
  map_fold (fun _ amount acc => (acc + amount)%Q) 0%Q daily_data.

Definition get_remaining_contract_amount (today : QDate) (db : database) : Q :=
  let contract_settings := get_contract_settings today db in
  let total_contract_amount := contract_amount contract_settings in
  let daily_data := get_all_daily_data db in
  let total_fact := sum_values daily_data in
  py_max0 (total_contract_amount - total_fact)%Q.

(** ** The plan of one month *)

(** [str(n)] of an [int]. *)
Definition py_str (n : Z) : string :=
  String.append (if n <? 0 then "-"%string else EmptyString)
                (zero_padded 1 (Z.abs n)).

(** [f"{n:02d}"]: at least two characters, the sign counted. *)
Definition py_02d (n : Z) : string :=
  if n <? 0 then String.append "-" (zero_padded 1 (Z.abs n))
  else zero_padded 2 n.

(** [f"{year}-{month:02d}"] *)
Definition py_month_key (year month : Z) : string :=
  py_str year +:+ "-" +:+ py_02d month.

(** [monthly_plans.get(month_key, 0.0)] *)
Definition plans_get (monthly_plans : gmap string Q) (month_key : string) : Q :=
  match monthly_plans !! month_key with
  | Some v => v
  | None => 0%Q
  end.

Definition get_adjusted_monthly_plan (fuel : nat) (today : QDate) (db : database)
    : Z -> Z -> res Q :=
  let contract_settings := get_contract_settings today db in
  let end_date := end_date contract_settings in
  let end_year := year end_date in
  let end_month := month end_date in
  fun year month =>
    let month_key := py_month_key year month in
    do monthly_plans <- calculate_monthly_plans fuel today db;
    if (year =? end_year) && (month =? end_month)
    then Ok (plans_get monthly_plans month_key)
    else Ok (plans_get monthly_plans month_key).

(** ** Balance on a date *)

Record balance_state : Type := {
  bal_date : QDate;
  bal_amount : Q
}.

(** One day of [_get_total_balance_on_date]: interest at [rate / 365.0]
    on the balance, then the payment of the day when it is positive. *)
Definition balance_day (cs : contract_settings) (daily_data : gmap string Q)
    (s : balance_state) : balance_state :=
  let current_balance :=
    if Qgtb (bal_amount s) 0 then
      let daily_rate := (get_effective_rate_on_date (bal_date s) cs / 365)%Q in
      let interest_today := (bal_amount s * daily_rate / 100)%Q in
      (bal_amount s + interest_today)%Q
    else bal_amount s in
  let day_key := toString (bal_date s) yyyy_MM_dd in
  let current_balance :=
    match daily_data !! day_key with
    | Some payment =>
        if Qgtb payment 0 then (current_balance + payment)%Q else current_balance
    | None => current_balance
    end in
  {| bal_date := addDays 1 (bal_date s); bal_amount := current_balance |}.

Fixpoint balance_loop (fuel : nat) (cs : contract_settings) (daily_data : gmap string Q)
    (d : QDate) (s : balance_state) : res Q :=
  match fuel with
  | O => OutOfFuel
  | S fuel' =>
      if date_leb (bal_date s) d
      then balance_loop fuel' cs daily_data d (balance_day cs daily_data s)
      else Ok (bal_amount s)
  end.

Definition _get_total_balance_on_date (fuel : nat) (today : QDate) (db : database)
    (d : QDate) : res Q :=
  let contract_settings := get_contract_settings today db in
  let start_date := start_date contract_settings in
  if date_ltb d start_date then Ok 0%Q
  else
    let daily_data := get_all_daily_data db in
    balance_loop fuel contract_settings daily_data d
      {| bal_date := start_date; bal_amount := 0 |}.

(** ** Notions used in the statements *)

(** The ordinal of a month: months are numbered through the years, with
    no year 0. *)
Definition month_ordinal (y m : Z) : Z := astro y * 12 + (m - 1).

Definition date_ordinal (q : QDate) : Z := month_ordinal (year q) (month q).

(** The first day of the month of ordinal [o]. *)
Definition month_start (o : Z) : QDate := Date (civil (o / 12)) (o mod 12 + 1) 1.

(** The key ['yyyy-MM'] of the month of ordinal [o]. *)
Definition month_key_of (o : Z) : string := toString (month_start o) yyyy_MM.

(** A date that the text form ['yyyy-MM-dd'] holds: valid, with a year of
    four digits. *)
Definition storable (q : QDate) : Prop :=
  isValid q = true /\ 1 <= year q <= 9999.

(** The ledger after a sequence of [save_daily_amount] calls. *)
Definition apply_writes (writes : list (QDate * Q)) (db : database) : database :=
  fold_left (fun db w => save_daily_amount (fst w) (snd w) db) writes db.

Definition has_entry (db : database) (d : QDate) : Prop :=
  In (toString d yyyy_MM_dd) (map fst (daily_data db)).

(** What every reachable ledger satisfies: no stored zero, one row per date. *)
Definition ledger_ok (rows : list (string * Q)) : Prop :=
  Forall (fun r => ~ (snd r == 0)%Q) rows /\ List.NoDup (map fst rows).

(** The entry that decides the rate on [d]: the latest change at or
    before [d]; of several entries with that date, the one listed last. *)
Fixpoint latest_change (d : QDate) (history : list rate_change) : option rate_change :=
  match history with
  | [] => None
  | rc :: rest =>
      match latest_change d rest with
      | Some b =>
          if date_leb (change_date rc) d && date_ltb (change_date b) (change_date rc)
          then Some rc else Some b
      | None => if date_leb (change_date rc) d then Some rc else None
      end
  end.

(** The entry on which the scan of a list stops. *)
Fixpoint scan_last (d : QDate) (history : list rate_change) (acc : option rate_change)
    : option rate_change :=
  match history with
  | [] => acc
  | rc :: rest =>
      if date_leb (change_date rc) d then scan_last d rest (Some rc) else acc
  end.

(** Sorted by date, in the weak sense: no entry is followed by an earlier one. *)
Definition by_date (a b : rate_change) : Prop :=
  date_ltb (change_date b) (change_date a) = false.

(** The settings of the effective-rate example of the specification. *)
Definition example_rates (s e : QDate) (amount : Q) : contract_settings :=
  {| start_date := s;
     end_date := e;
     initial_rate := 3;
     rate_history := [ {| date := "01.01.2023"; rate := 5 |};
                       {| date := "01.06.2023"; rate := 7 |} ];
     contract_amount := amount |}.

(** ** Concrete data for the examples *)

Definition sample_settings : contract_settings :=
  {| start_date := Date 2024 1 31;
     end_date := Date 2025 1 31;
     initial_rate := 3;
     rate_history := [ {| date := "01.06.2024"; rate := 5 |};
                       {| date := "01.06.2024"; rate := 7 |} ];
     contract_amount := 12000 |}.

Definition sample_db : database := save_contract_settings sample_settings init_database.

(** C8 as the specification words it: the round trip for a record whose
    two dates are valid, whatever their year. *)
Definition settings_round_trip_as_stated
    (contract_data : contract_settings) (db : database) (today : QDate) : Prop :=
  isValid (start_date contract_data) = true ->
  isValid (end_date contract_data) = true ->
  let loaded := get_contract_settings today (save_contract_settings contract_data db) in
  rate_history loaded = rate_history contract_data
  /\ start_date loaded = start_date contract_data
  /\ end_date loaded = end_date contract_data
  /\ initial_rate loaded = initial_rate contract_data
  /\ contract_amount loaded = contract_amount contract_data.

(** A contract of the year 10000, a year written with five digits. *)
Definition year_10000 : contract_settings :=
  {| start_date := Date 10000 1 1;
     end_date := Date 10001 1 1;
     initial_rate := 3;
     rate_history := [];
     contract_amount := 12000 |}.

(** ** The run of the plan loop *)

Definition plan_start (first : Z) : plan_state :=
  {| current_date := month_start first;
     month_index := 0;
     cumulative_fact := 0;
     monthly_plans := ∅ |}.

(** The state after [k] months, the first one of ordinal [first], have
    been given their plan. *)
Fixpoint plan_after (base : Q) (data : gmap string Q) (first : Z) (k : nat) : plan_state :=
  match k with
  | O => plan_start first
  | S k' => plan_month base data (plan_after base data first k')
  end.

(** The deposits of the first [k] months of the contract, summed month
    by month as the loop does. *)
Fixpoint cumulative_through (data : gmap string Q) (first : Z) (k : nat) : Q :=
  match k with
  | O => 0%Q
  | S k' =>
      (cumulative_through data first k'
       + monthly_fact data (month_key_of (first + Z.of_nat k')))%Q
  end.

(** The number of months that get a plan: from the month of the start to
    the month before the month of the end. *)
Definition included_months (cs : contract_settings) : nat :=
  Z.to_nat (date_ordinal (end_date cs) - date_ordinal (start_date cs)).

(** The plan of the month of ordinal [o], 0 when the month has none. *)
Definition plan_of (plans : gmap string Q) (o : Z) : Q :=
  match plans !! month_key_of o with Some v => v | None => 0%Q end.


(** The month [(y, m)] lies in the contract: from the month of the start
    to the month before the month of the end. *)
Definition contract_month (cs : contract_settings) (y m : Z) : Prop :=
  y <> 0 /\ 1 <= m <= 12
  /\ date_ordinal (start_date cs) <= month_ordinal y m < date_ordinal (end_date cs).


(** C2 as the specification words it: deposits through month [k] above
    [base * k] make the plan of month [k + 1] smaller than [base]. *)
Definition next_month_reduced_as_stated (fuel : nat) (today : QDate) (db : database) : Prop :=
  let cs := get_contract_settings today db in
  let n := _get_months_between_dates_including_start_excluding_end
             (start_date cs) (end_date cs) in
  let base := (contract_amount cs / inject_Z n)%Q in
  let first := date_ordinal (start_date cs) in
  forall plans (k : nat),
    calculate_monthly_plans fuel today db = Ok plans ->
    (0 < k < included_months cs)%nat ->
    (base * inject_Z (Z.of_nat k)
     < cumulative_through (get_all_daily_data db) first k)%Q ->
    (plan_of plans (first + Z.of_nat k) < base)%Q.

Definition year_2024 (amount : Q) : contract_settings :=
  {| start_date := Date 2024 1 1;
     end_date := Date 2025 1 1;
     initial_rate := 0;
     rate_history := [];
     contract_amount := amount |}.


Definition overpaid_db : database :=
  save_daily_amount (Date 2024 1 10) 150
    (save_contract_settings (year_2024 1200) init_database).

Definition paid_up_db : database :=
  save_contract_settings (year_2024 12000) init_database.

(** ** The run of the daily simulation *)

(** The interest that step A credits on the day of state [s]. *)
Definition interest_of_day (cs : contract_settings) (s : sim_state) : res Q :=
  if Qgtb (current_balance s) 0
  then daily_interest_of cs (iter_date s) (current_balance s)
  else Ok 0%Q.

(** The deposit that step B adds on the day of state [s]. *)
Definition deposit_of_day (all_payments : gmap string Q) (s : sim_state) : Q :=
  match all_payments !! toString (iter_date s) yyyy_MM_dd with
  | Some payment => payment
  | None => 0%Q
  end.



Definition three_percent : contract_settings :=
  {| start_date := Date 2024 1 1;
     end_date := Date 2025 1 1;
     initial_rate := 3;
     rate_history := [];
     contract_amount := 12000 |}.

(** ** The months summed by the accumulated interest *)

(** A rank of days that grows with the date (months counted as 31 days). *)
Definition day_rank (q : QDate) : Z :=
  astro (year q) * 372 + (month q - 1) * 31 + (day q - 1).

(** Year and month of the month of ordinal [o]. *)
Definition year_of (o : Z) : Z := year (month_start o).
Definition month_of (o : Z) : Z := month (month_start o).

(** [n] months in a row, from the month of ordinal [o], as (year, month). *)
Fixpoint months_from (o : Z) (n : nat) : list (Z * Z) :=
  match n with
  | O => []
  | S n' => (year_of o, month_of o) :: months_from (o + 1) n'
  end.

(** The months after the month of [start_date], through the month of
    [up_to_date]. *)
Definition months_after (start_date up_to_date : QDate) : list (Z * Z) :=
  months_from (date_ordinal start_date + 1)
    (Z.to_nat (date_ordinal up_to_date - date_ordinal start_date)).

(** The loop of [get_total_accumulated_interest] as a sum over [n]
    months from the month of ordinal [o]. *)
Fixpoint sum_months (monthly_interest : Z -> Z -> res Q) (o : Z) (n : nat)
    (total_interest : Q) : res Q :=
  match n with
  | O => Ok total_interest
  | S n' =>
      do interest <- monthly_interest (year_of o) (month_of o);
      sum_months monthly_interest (o + 1) n' (total_interest + interest)%Q
  end.

(** Fuel that suffices for the simulations up to [up_to_date]. *)
Definition enough_fuel (start_date up_to_date : QDate) : nat :=
  Z.to_nat (372 * (astro (year up_to_date) - astro (year start_date) + 1)) + 2.

Definition three_percent_db : database :=
  save_contract_settings three_percent init_database.

(** ** More concrete data for the examples *)

(** The contract at 3 % with 1000 deposited on the second day. *)
Definition three_percent_deposit_db : database :=
  save_daily_amount (Date 2024 1 2) 1000 three_percent_db.

(** The settings of [example_rates] with the two rate changes listed in
    the other order. *)
Definition example_rates_swapped (s e : QDate) (amount : Q) : contract_settings :=
  {| start_date := s;
     end_date := e;
     initial_rate := 3;
     rate_history := [ {| date := "01.06.2023"; rate := 7 |};
                       {| date := "01.01.2023"; rate := 5 |} ];
     contract_amount := amount |}.

(** The value of a result, [0] when there is none. *)
Definition value_of (r : res Q) : Q :=
  match r with Ok v => v | _ => 0%Q end.

(** * Properties *)

(** ** Tactics *)

Ltac bool_prop :=
  repeat
    (rewrite ?andb_true_iff, ?orb_true_iff, ?negb_true_iff, ?andb_false_iff,
       ?orb_false_iff, ?negb_false_iff, ?Z.ltb_lt, ?Z.leb_le, ?Z.eqb_eq,
       ?Z.ltb_ge, ?Z.leb_gt, ?Z.eqb_neq in *).

Ltac date_order :=
  unfold date_geb, date_gtb, date_leb in *;
  repeat match goal with q : QDate |- _ => destruct q end;
  simpl in *; bool_prop; try discriminate; try lia; try tauto.

(** ** The order of dates *)

Lemma date_ltb_irrefl a : date_ltb a a = false.
Proof. date_order. Qed.

Lemma date_ltb_trans a b c :
  date_ltb a b = true -> date_ltb b c = true -> date_ltb a c = true.
Proof. intros. date_order. Qed.

Lemma date_ltb_nlt_trans a b c :
  date_ltb a b = true -> date_ltb c b = false -> date_ltb a c = true.
Proof. intros. date_order. Qed.

Lemma date_nlt_ltb_trans a b c :
  date_ltb b a = false -> date_ltb b c = true -> date_ltb a c = true.
Proof. intros. date_order. Qed.

Lemma date_nlt_trans a b c :
  date_ltb b a = false -> date_ltb c b = false -> date_ltb c a = false.
Proof. intros. date_order. Qed.

Lemma date_ltb_asym a b : date_ltb a b = true -> date_ltb b a = false.
Proof. intros. date_order. Qed.

Lemma date_leb_false_above a b c :
  date_ltb a b = true -> date_leb a c = false -> date_leb b c = false.
Proof. intros. date_order. Qed.

Lemma date_leb_false_mono a b c :
  date_ltb a b = false -> date_leb b c = false -> date_leb a c = false.
Proof. intros. date_order. Qed.

Lemma date_leb_ltb_trans a b c :
  date_leb a b = true -> date_ltb b c = true -> date_ltb a c = true.
Proof. intros. date_order. Qed.

(** ** Month count and division *)

Lemma Qeq_bool_inject_Z_pos (n : Z) : 1 <= n -> Qeq_bool (inject_Z n) 0 = false.
Proof.
  intros Hn. destruct (Qeq_bool (inject_Z n) 0) eqn:E; [|reflexivity].
  apply Qeq_bool_iff in E. unfold Qeq in E. simpl in E. lia.
Qed.

Lemma py_div_inject_Z_pos (a : Q) (n : Z) :
  1 <= n -> py_div a (inject_Z n) = Ok (a / inject_Z n)%Q.
Proof. intros Hn. unfold py_div. now rewrite Qeq_bool_inject_Z_pos. Qed.

Lemma plans_loop_not_raised fuel end_date base data s e :
  plans_loop fuel end_date base data s <> Raised e.
Proof.
  revert s. induction fuel as [|fuel IH]; intros s; simpl; [discriminate|].
  destruct (date_ltb (current_date s) end_date); [|discriminate].
  destruct (is_closing_month (current_date s) end_date); apply IH.
Qed.

(** C7: the month count is [max(1, (end.year - start.year) * 12 +
    end.month - start.month)], hence at least 1 for all dates; the test
    [months_count == 0] is never true, the division that computes
    [base_monthly_amount] is defined, and [calculate_monthly_plans] never
    raises [ZeroDivisionError]. *)
Theorem months_count_at_least_one
    (start_date end_date : QDate) (total_amount : Q)
    (fuel : nat) (today : QDate) (db : database) :
  let months_count :=
    _get_months_between_dates_including_start_excluding_end start_date end_date in
  months_count =
    Z.max 1 ((year end_date - year start_date) * 12
             + month end_date - month start_date)
  /\ 1 <= months_count
  /\ (months_count =? 0) = false
  /\ py_div total_amount (inject_Z months_count)
     = Ok (total_amount / inject_Z months_count)%Q
  /\ calculate_monthly_plans fuel today db <> Raised ZeroDivisionError.
Proof.
  intros months_count.
  assert (Hdef : months_count =
    Z.max 1 ((year end_date - year start_date) * 12
             + month end_date - month start_date)) by reflexivity.
  assert (Hpos : 1 <= months_count) by lia.
  repeat split; trivial.
  - apply Z.eqb_neq. lia.
  - now apply py_div_inject_Z_pos.
  - unfold calculate_monthly_plans.
    destruct (Qeq_bool _ 0); [discriminate|].
    set (n := _get_months_between_dates_including_start_excluding_end _ _).
    assert (1 <= n) by (unfold n, _get_months_between_dates_including_start_excluding_end; lia).
    replace (n =? 0) with false by (symmetry; apply Z.eqb_neq; lia).
    rewrite py_div_inject_Z_pos by assumption. simpl.
    apply plans_loop_not_raised.
Qed.

(** ** Accrual date and the two early returns *)

Lemma monthDays_ge_28 y m : 1 <= m <= 12 -> 28 <= monthDays y m <= 31.
Proof.
  intros Hm. unfold monthDays.
  destruct (m =? 2); [destruct (isLeapYear y); lia|].
  destruct ((m =? 4) || (m =? 6) || (m =? 9) || (m =? 11)); [lia|].
  replace ((1 <=? m) && (m <=? 12)) with true; [lia|].
  symmetry. bool_prop. lia.
Qed.

Lemma validYMD_iff y m d :
  validYMD y m d = true <-> y <> 0 /\ 1 <= m <= 12 /\ 1 <= d <= monthDays y m.
Proof. unfold validYMD. bool_prop. lia. Qed.

Lemma mkQDate_valid y m d : validYMD y m d = true -> mkQDate y m d = Date y m d.
Proof. unfold mkQDate. now intros ->. Qed.

Lemma mkQDate_invalid y m d : validYMD y m d = false -> mkQDate y m d = NullDate.
Proof. unfold mkQDate. now intros ->. Qed.




(** ** The deposit ledger *)


Lemma delete_daily_In key r rows :
  In r (delete_daily key rows) <-> In r rows /\ fst r <> key.
Proof.
  unfold delete_daily. rewrite List.filter_In, negb_true_iff.
  destruct (String.eqb_spec (fst r) key); intuition congruence.
Qed.

Lemma delete_daily_no_key key rows : ~ In key (map fst (delete_daily key rows)).
Proof.
  rewrite List.in_map_iff. intros (r & Hk & Hin).
  apply delete_daily_In in Hin. tauto.
Qed.

Lemma delete_daily_keys k key rows :
  In k (map fst (delete_daily key rows)) <-> In k (map fst rows) /\ k <> key.
Proof.
  rewrite !List.in_map_iff. split.
  - intros (r & <- & Hin). apply delete_daily_In in Hin. split; [exists r|]; tauto.
  - intros [(r & <- & Hin) Hne]. exists r. split; [reflexivity|].
    apply delete_daily_In. tauto.
Qed.

Lemma delete_daily_ok key rows : ledger_ok rows -> ledger_ok (delete_daily key rows).
Proof.
  intros [Hnz Hnd]. split.
  - rewrite List.Forall_forall in *. intros r Hin.
    apply delete_daily_In in Hin. apply Hnz. tauto.
  - clear Hnz. induction rows as [|r rows IH]; simpl; [constructor|].
    inversion Hnd as [|? ? Hnotin Hnd']; subst.
    destruct (negb (String.eqb (fst r) key)); simpl; [|now apply IH].
    constructor; [|now apply IH].
    intros Hin. apply delete_daily_keys in Hin. tauto.
Qed.

Lemma save_daily_amount_ok d amount db :
  ledger_ok (daily_data db) -> ledger_ok (daily_data (save_daily_amount d amount db)).
Proof.
  intros Hok. unfold save_daily_amount. simpl.
  destruct (Qeq_bool amount 0) eqn:E; [now apply delete_daily_ok|].
  destruct (delete_daily_ok (toString d yyyy_MM_dd) _ Hok) as [Hnz Hnd].
  split.
  - apply List.Forall_app. split; [assumption|].
    constructor; [|constructor]. simpl. intros Hz.
    apply Qeq_bool_iff in Hz. congruence.
  - rewrite List.map_app. simpl.
    apply List.NoDup_app; trivial.
    + constructor; [intros []|constructor].
    + intros k Hin [<-|[]]. revert Hin. apply delete_daily_no_key.
Qed.

Lemma apply_writes_ok writes db :
  ledger_ok (daily_data db) -> ledger_ok (daily_data (apply_writes writes db)).
Proof.
  revert db. induction writes as [|w writes IH]; intros db Hok; simpl; [assumption|].
  apply IH. now apply save_daily_amount_ok.
Qed.

Lemma get_daily_amount_absent d db :
  ~ has_entry db d -> get_daily_amount d db = 0%Q.
Proof.
  unfold has_entry, get_daily_amount. intros Hno.
  destruct (List.find _ _) as [r|] eqn:E; [|reflexivity].
  apply List.find_some in E. destruct E as [Hin Heq].
  apply String.eqb_eq in Heq. exfalso. apply Hno.
  apply List.in_map_iff. now exists r.
Qed.

Lemma get_daily_amount_present d db :
  ledger_ok (daily_data db) -> has_entry db d -> ~ (get_daily_amount d db == 0)%Q.
Proof.
  unfold has_entry, get_daily_amount. intros [Hnz _] Hin.
  destruct (List.find _ _) as [r|] eqn:E.
  - apply List.find_some in E. destruct E as [Hr _].
    rewrite List.Forall_forall in Hnz. now apply Hnz.
  - exfalso. apply List.in_map_iff in Hin. destruct Hin as (r & Hk & Hr).
    apply (List.find_none _ _ E) in Hr. simpl in Hr.
    rewrite Hk, String.eqb_refl in Hr. discriminate.
Qed.

Lemma count_rows_after_upsert key amount rows :
  List.filter (fun r => String.eqb (fst r) key) (delete_daily key rows ++ [(key, amount)])
  = [(key, amount)].
Proof.
  rewrite List.filter_app. simpl. rewrite String.eqb_refl.
  replace (List.filter _ (delete_daily key rows)) with (@nil (string * Q)); [reflexivity|].
  symmetry. unfold delete_daily. induction rows as [|r rows IH]; simpl; [reflexivity|].
  destruct (String.eqb (fst r) key) eqn:E; simpl; [assumption|].
  now rewrite E.
Qed.

(** C9: in every ledger reached from the empty one by a sequence of
    [save_daily_amount] calls no row holds the amount 0 and no two rows
    have the same date; saving 0 for a date removes its row, saving any
    other amount leaves exactly one row for the date, with that amount;
    [get_daily_amount] is 0.0 for a date without a row; hence
    [get_daily_amount d] is 0 exactly when the ledger has no row for [d]. *)
Theorem ledger_never_stores_zero
    (writes : list (QDate * Q)) (d : QDate) (amount : Q) :
  let db := apply_writes writes init_database in
  Forall (fun r => ~ (snd r == 0)%Q) (daily_data db)
  /\ List.NoDup (map fst (daily_data db))
  /\ ((amount == 0)%Q -> ~ has_entry (save_daily_amount d amount db) d)
  /\ (~ (amount == 0)%Q ->
      List.filter (fun r => String.eqb (fst r) (toString d yyyy_MM_dd))
        (daily_data (save_daily_amount d amount db))
      = [(toString d yyyy_MM_dd, amount)])
  /\ (~ has_entry db d -> get_daily_amount d db = 0%Q)
  /\ ((get_daily_amount d db == 0)%Q <-> ~ has_entry db d).
Proof.
  intros db.
  assert (Hok : ledger_ok (daily_data db)).
  { apply apply_writes_ok. split; constructor. }
  destruct Hok as [Hnz Hnd]. repeat split; trivial.
  - intros Hz. apply Qeq_bool_iff in Hz.
    unfold has_entry, save_daily_amount. simpl. rewrite Hz.
    apply delete_daily_no_key.
  - intros Hz. unfold save_daily_amount. simpl.
    destruct (Qeq_bool amount 0) eqn:E; [apply Qeq_bool_iff in E; tauto|].
    apply count_rows_after_upsert.
  - apply get_daily_amount_absent.
  - intros Hz Hin. revert Hz. apply get_daily_amount_present; [split|]; assumption.
  - intros Hno. now rewrite get_daily_amount_absent.
Qed.

(** ** Text forms of dates *)

Lemma digit_val_char k : 0 <= k <= 9 -> digit_val (digit_char k) = Some k.
Proof.
  intros Hk. unfold digit_val, digit_char.
  rewrite nat_ascii_embedding by lia.
  replace ((48 <=? Z.of_nat (48 + Z.to_nat k)) && (Z.of_nat (48 + Z.to_nat k) <=? 57))
    with true by (symmetry; bool_prop; lia).
  f_equal. lia.
Qed.

Lemma ndigits_aux_le fuel : forall n k,
  0 <= n < 10 ^ Z.of_nat k -> (1 <= k)%nat -> (ndigits_aux fuel n <= k)%nat.
Proof.
  induction fuel as [|fuel IH]; intros n k Hn Hk; simpl; [assumption|].
  destruct (Z.ltb_spec n 10); [assumption|].
  destruct k as [|k]; [lia|].
  destruct k as [|k]; [simpl in Hn; lia|].
  apply le_n_S. apply IH; [|lia].
  rewrite Nat2Z.inj_succ, Z.pow_succ_r in Hn by lia.
  split; [apply Z.div_pos; lia|].
  apply Z.div_lt_upper_bound; lia.
Qed.

Lemma zero_padded_small w n :
  (1 <= w)%nat -> 0 <= n < 10 ^ Z.of_nat w -> zero_padded w n = digits w n.
Proof.
  intros Hw Hn. unfold zero_padded.
  rewrite Nat.max_l; [reflexivity|]. now apply ndigits_aux_le.
Qed.

Lemma number2_digits n :
  0 <= n < 100 ->
  exists a b, digits 2 n = String a (String b EmptyString) /\ number2 a b = Some n.
Proof.
  intros Hn. eexists _, _. split; [reflexivity|].
  unfold number2. change (10 ^ Z.of_nat 1) with 10. change (10 ^ Z.of_nat 0) with 1.
  rewrite !digit_val_char by (Z.to_euclidean_division_equations; lia).
  f_equal. Z.to_euclidean_division_equations. lia.
Qed.

Lemma number4_digits n :
  0 <= n < 10000 ->
  exists a b c d,
    digits 4 n = String a (String b (String c (String d EmptyString)))
    /\ number4 a b c d = Some n.
Proof.
  intros Hn. eexists _, _, _, _. split; [reflexivity|].
  unfold number4, number2.
  change (10 ^ Z.of_nat 3) with 1000. change (10 ^ Z.of_nat 2) with 100.
  change (10 ^ Z.of_nat 1) with 10. change (10 ^ Z.of_nat 0) with 1.
  rewrite !digit_val_char by (Z.to_euclidean_division_equations; lia).
  f_equal. Z.to_euclidean_division_equations. lia.
Qed.

Lemma fromString_toString q :
  storable q -> fromString (toString q yyyy_MM_dd) yyyy_MM_dd = q.
Proof.
  intros [Hv Hy]. destruct q as [|y m d]; [discriminate|].
  simpl in Hy. unfold toString. rewrite Hv. simpl negb. cbv iota.
  simpl in Hv. pose proof Hv as Hv'. apply validYMD_iff in Hv'.
  pose proof (monthDays_ge_28 y m ltac:(lia)) as Hmd.
  unfold yyyy. replace (y <? 0) with false by (symmetry; apply Z.ltb_ge; lia).
  rewrite Z.abs_eq by lia.
  rewrite (zero_padded_small 4 y), (zero_padded_small 2 m), (zero_padded_small 2 d)
    by (simpl; lia).
  destruct (number4_digits y ltac:(lia)) as (y1 & y2 & y3 & y4 & -> & Hyv).
  destruct (number2_digits m ltac:(lia)) as (m1 & m2 & -> & Hmv).
  destruct (number2_digits d ltac:(lia)) as (d1 & d2 & -> & Hdv).
  simpl. rewrite Hyv, Hmv, Hdv. simpl. now apply mkQDate_valid.
Qed.

(** ** Saving and reloading the contract settings *)

(** C8: for a settings record whose two dates are valid dates of the
    text form ['yyyy-MM-dd'] (years 1 to 9999), [save_contract_settings]
    followed by [get_contract_settings] gives back the record: the same
    [rate_history] entries, the same [start_date], [end_date],
    [initial_rate] and [contract_amount], whatever the table held before. *)
Theorem settings_round_trip
    (contract_data : contract_settings) (db : database) (today : QDate) :
  storable (start_date contract_data) ->
  storable (end_date contract_data) ->
  get_contract_settings today (save_contract_settings contract_data db)
  = contract_data.
Proof.
  intros Hs He. unfold get_contract_settings, save_contract_settings, latest_row.
  cbn -[toString fromString]. rewrite !fromString_toString by assumption.
  now destruct contract_data.
Qed.

(** ** The effective rate *)

Section EffectiveRate.
Variable d : QDate.

Abbreviation key := change_date.
Abbreviation qualifies rc := (date_leb (change_date rc) d).

Lemma insert_sorted_In (x z : rate_change) l :
  In z (insert_sorted key x l) <-> z = x \/ In z l.
Proof.
  induction l as [|y l IH]; simpl; [intuition|].
  destruct (date_ltb (key y) (key x)); simpl; [rewrite IH|]; intuition.
Qed.

Lemma insert_sorted_by_date x l :
  StronglySorted by_date l -> StronglySorted by_date (insert_sorted key x l).
Proof.
  induction 1 as [|y l Hl IH Hy]; simpl.
  - constructor; constructor.
  - destruct (date_ltb (key y) (key x)) eqn:E.
    + constructor; [assumption|].
      rewrite List.Forall_forall in *. intros z Hz.
      apply insert_sorted_In in Hz. destruct Hz as [->|Hz]; [|now apply Hy].
      unfold by_date. now apply date_ltb_asym.
    + constructor; [now constructor|].
      constructor; [exact E|].
      rewrite List.Forall_forall in *. intros z Hz.
      unfold by_date. apply date_nlt_trans with (key y); [exact E|].
      now apply Hy.
Qed.

Lemma sorted_by_date l : StronglySorted by_date (sorted key l).
Proof.
  induction l as [|x l IH]; simpl; [constructor|]. now apply insert_sorted_by_date.
Qed.

Lemma scan_rates_last l : forall acc r0,
  scan_rates d l (match acc with Some b => rate b | None => r0 end)
  = match scan_last d l acc with Some b => rate b | None => r0 end.
Proof.
  induction l as [|y l IH]; intros acc r0; simpl; [reflexivity|].
  destruct (qualifies y); [|reflexivity]. exact (IH (Some y) r0).
Qed.

Lemma scan_last_origin l : forall acc b,
  scan_last d l acc = Some b ->
  acc = Some b \/ (In b l /\ qualifies b = true).
Proof.
  induction l as [|y l IH]; intros acc b; simpl; [now left|].
  destruct (qualifies y) eqn:E; [|now left].
  intros H. apply IH in H. destruct H as [[= ->]|[Hin Hq]]; right; auto.
Qed.

Lemma scan_last_from_some l : forall b0, exists b, scan_last d l (Some b0) = Some b.
Proof.
  induction l as [|y l IH]; intros b0; simpl; [now exists b0|].
  destruct (qualifies y); [apply IH|now exists b0].
Qed.

Lemma scan_last_insert x : forall l acc,
  StronglySorted by_date l ->
  (forall b, acc = Some b -> date_ltb (key b) (key x) = true) ->
  scan_last d (insert_sorted key x l) acc
  = if qualifies x then
      match scan_last d l acc with
      | Some b => if date_ltb (key b) (key x) then Some x else Some b
      | None => Some x
      end
    else scan_last d l acc.
Proof.
  induction l as [|y l IH]; intros acc Hs Hacc.
  - simpl. destruct (qualifies x); [|reflexivity].
    destruct acc as [b|]; [|reflexivity]. now rewrite (Hacc b).
  - inversion Hs as [|? ? Hl Hy]; subst. simpl.
    destruct (date_ltb (key y) (key x)) eqn:Eyx; simpl.
    + destruct (qualifies y) eqn:Ey.
      * apply IH; [assumption|]. now intros b [= <-].
      * destruct (qualifies x) eqn:Ex; [|reflexivity].
        rewrite (date_leb_false_above _ _ _ Eyx Ey) in Ex. discriminate.
    + destruct (qualifies x) eqn:Ex.
      * destruct (qualifies y) eqn:Ey.
        -- destruct (scan_last_from_some l y) as [b Hb]. rewrite Hb.
           replace (date_ltb (key b) (key x)) with false; [reflexivity|].
           symmetry. apply scan_last_origin in Hb.
           destruct Hb as [[= <-]|[Hin _]]; [assumption|].
           rewrite List.Forall_forall in Hy. specialize (Hy b Hin).
           unfold by_date in Hy. now apply date_nlt_trans with (key y).
        -- destruct acc as [b|]; [|reflexivity]. now rewrite (Hacc b).
      * replace (qualifies y) with false; [reflexivity|].
        symmetry. exact (date_leb_false_mono _ _ _ Eyx Ex).
Qed.

Lemma scan_last_sorted l : scan_last d (sorted key l) None = latest_change d l.
Proof.
  induction l as [|x l IH]; simpl; [reflexivity|].
  rewrite scan_last_insert; [|apply sorted_by_date|discriminate].
  rewrite IH. destruct (qualifies x), (latest_change d l) as [b|]; simpl; trivial.
Qed.

Lemma effective_rate_latest_change cs :
  get_effective_rate_on_date d cs
  = match latest_change d (rate_history cs) with
    | Some rc => rate rc
    | None => initial_rate cs
    end.
Proof.
  unfold get_effective_rate_on_date.
  rewrite <- scan_last_sorted. exact (scan_rates_last _ None (initial_rate cs)).
Qed.

Lemma latest_change_origin l rc :
  latest_change d l = Some rc -> In rc l /\ qualifies rc = true.
Proof.
  revert rc. induction l as [|x l IH]; intros rc; simpl; [discriminate|].
  destruct (latest_change d l) as [b|].
  - destruct (qualifies x) eqn:Ex; simpl.
    + destruct (date_ltb (key b) (key x)); intros [= <-]; auto.
      destruct (IH b eq_refl); auto.
    + intros [= <-]. destruct (IH b eq_refl); auto.
  - destruct (qualifies x) eqn:Ex; [|discriminate]. intros [= <-]; auto.
Qed.

Lemma latest_change_None l :
  latest_change d l = None <-> (forall rc, In rc l -> qualifies rc = false).
Proof.
  induction l as [|x l IH]; simpl; [intuition|].
  destruct (latest_change d l) as [b|] eqn:E.
  - split.
    + destruct (qualifies x && date_ltb (key b) (key x)); discriminate.
    + intros H. apply latest_change_origin in E. destruct E as [Hin Hq].
      rewrite H in Hq by auto. discriminate.
  - destruct (qualifies x) eqn:Ex; split; try discriminate; trivial.
    + intros H. rewrite H in Ex by auto. discriminate.
    + intros _ rc [<-|Hin]; [assumption|]. now apply IH.
Qed.

(** The chosen entry, seen in the list as the caller wrote it. *)
Lemma latest_change_Some l rc :
  latest_change d l = Some rc ->
  exists pre post,
    l = pre ++ rc :: post
    /\ qualifies rc = true
    /\ (forall x, In x pre -> qualifies x = true ->
                  date_leb (key x) (key rc) = true)
    /\ (forall x, In x post -> qualifies x = true ->
                  date_ltb (key x) (key rc) = true).
Proof.
  revert rc. induction l as [|x l IH]; intros rc; simpl; [discriminate|].
  destruct (latest_change d l) as [b|] eqn:E.
  - destruct (IH b eq_refl) as (pre & post & -> & Hq & Hpre & Hpost).
    destruct (qualifies x && date_ltb (key b) (key x)) eqn:Ex; intros [= <-].
    + apply andb_true_iff in Ex. destruct Ex as [Ex Hbx].
      exists [], (pre ++ b :: post). repeat split; trivial; [intros ? []|].
      intros z Hz Hzq. apply List.in_app_iff in Hz.
      destruct Hz as [Hz|[<-|Hz]]; trivial.
      * exact (date_leb_ltb_trans _ _ _ (Hpre z Hz Hzq) Hbx).
      * apply date_ltb_trans with (key b); auto.
    + exists (x :: pre), post. repeat split; trivial.
      intros z [<-|Hz] Hzq; [|now apply Hpre].
      rewrite Hzq in Ex. simpl in Ex. unfold date_leb. now rewrite Ex.
  - destruct (qualifies x) eqn:Ex; [|discriminate]. intros [= <-].
    exists [], l. repeat split; trivial; [intros ? []|].
    intros z Hz Hzq. rewrite (proj1 (latest_change_None l) E z Hz) in Hzq.
    discriminate.
Qed.

Lemma latest_change_head rc post :
  qualifies rc = true ->
  (forall x, In x post -> qualifies x = true -> date_ltb (key x) (key rc) = true) ->
  latest_change d (rc :: post) = Some rc.
Proof.
  intros Hq Hpost. simpl. rewrite Hq.
  destruct (latest_change d post) as [b|] eqn:E; [|reflexivity].
  apply latest_change_origin in E. destruct E as [Hin Hb].
  now rewrite (Hpost b Hin Hb).
Qed.

Lemma latest_change_prefix pre l rc :
  latest_change d l = Some rc ->
  (forall x, In x pre -> qualifies x = true -> date_leb (key x) (key rc) = true) ->
  latest_change d (pre ++ l) = Some rc.
Proof.
  intros Hl. induction pre as [|x pre IH]; intros Hpre; simpl; [assumption|].
  rewrite IH by (intros; apply Hpre; simpl; auto).
  destruct (qualifies x) eqn:Ex; [|reflexivity]. simpl.
  specialize (Hpre x (or_introl eq_refl) Ex). unfold date_leb in Hpre.
  apply negb_true_iff in Hpre. now rewrite Hpre.
Qed.
End EffectiveRate.

(** C3: [get_effective_rate_on_date] returns the rate of the latest entry
    of the history dated at or before [d], in whatever order the caller
    listed the entries, and [initial_rate] when no entry is dated at or
    before [d]; an empty history gives [initial_rate] on every date; on
    the history 01.01.2023 -> 5, 01.06.2023 -> 7 with initial rate 3 the
    rates are 3 on 2022-12-31, 5 on 2023-03-01, 7 on 2023-06-01 and 7 on
    2023-12-31. *)
Theorem effective_rate_is_latest_change (d : QDate) (cs : contract_settings) :
  ((forall rc, In rc (rate_history cs) -> date_leb (change_date rc) d = false) ->
   get_effective_rate_on_date d cs = initial_rate cs)
  /\ ((exists rc, In rc (rate_history cs) /\ date_leb (change_date rc) d = true) ->
      exists pre rc post,
        rate_history cs = pre ++ rc :: post
        /\ date_leb (change_date rc) d = true
        /\ (forall x, In x (rate_history cs) -> date_leb (change_date x) d = true ->
                      date_leb (change_date x) (change_date rc) = true)
        /\ (forall x, In x post -> date_leb (change_date x) d = true ->
                      date_ltb (change_date x) (change_date rc) = true)
        /\ get_effective_rate_on_date d cs = rate rc)
  /\ (rate_history cs = [] -> get_effective_rate_on_date d cs = initial_rate cs)
  /\ (forall s e a,
        get_effective_rate_on_date (Date 2022 12 31) (example_rates s e a) = 3%Q
        /\ get_effective_rate_on_date (Date 2023 3 1) (example_rates s e a) = 5%Q
        /\ get_effective_rate_on_date (Date 2023 6 1) (example_rates s e a) = 7%Q
        /\ get_effective_rate_on_date (Date 2023 12 31) (example_rates s e a) = 7%Q).
Proof.
  repeat split.
  - intros Hnone. rewrite effective_rate_latest_change.
    now rewrite (proj2 (latest_change_None d (rate_history cs)) Hnone).
  - intros (rc0 & Hin0 & Hq0). rewrite effective_rate_latest_change.
    destruct (latest_change d (rate_history cs)) as [rc|] eqn:E.
    + destruct (latest_change_Some d _ _ E) as (pre & post & Heq & Hq & Hpre & Hpost).
      exists pre, rc, post. repeat split; trivial.
      intros x Hx Hxq. rewrite Heq in Hx. apply List.in_app_iff in Hx.
      destruct Hx as [Hx|[<-|Hx]]; [now apply Hpre| |].
      * unfold date_leb. now rewrite date_ltb_irrefl.
      * specialize (Hpost x Hx Hxq). unfold date_leb.
        now rewrite (date_ltb_asym _ _ Hpost).
    + rewrite (proj1 (latest_change_None d _) E rc0 Hin0) in Hq0. discriminate.
  - intros Hnil. unfold get_effective_rate_on_date. now rewrite Hnil.
Qed.

(** C10: the result does not depend on anything but the date and the
    settings, and entries with the same date are settled by their order
    in the list: when [rc] is dated at or before [d], no entry dated at
    or before [d] is later than [rc], and no entry listed after [rc] has
    the date of [rc], the rate of [rc] is returned. *)
Theorem same_date_last_listed_wins
    (d : QDate) (cs : contract_settings) (pre post : list rate_change)
    (rc : rate_change) :
  rate_history cs = pre ++ rc :: post ->
  date_leb (change_date rc) d = true ->
  (forall x, In x (rate_history cs) -> date_leb (change_date x) d = true ->
             date_leb (change_date x) (change_date rc) = true) ->
  (forall x, In x post ->
             date_ltb (change_date x) (change_date rc) = true \/
             date_ltb (change_date rc) (change_date x) = true) ->
  get_effective_rate_on_date d cs = rate rc
  /\ (forall d' cs', d' = d -> cs' = cs ->
        get_effective_rate_on_date d' cs' = get_effective_rate_on_date d cs).
Proof.
  intros Heq Hq Hlatest Hlast. split; [|now intros ? ? -> ->].
  rewrite effective_rate_latest_change, Heq.
  rewrite (latest_change_prefix d pre (rc :: post) rc); trivial.
  - apply latest_change_head; [assumption|].
    intros x Hx Hxq. destruct (Hlast x Hx) as [Hlt|Hgt]; [assumption|].
    assert (Hle : date_leb (change_date x) (change_date rc) = true).
    { apply Hlatest; [|assumption]. rewrite Heq. apply List.in_app_iff. simpl. auto. }
    unfold date_leb in Hle. rewrite Hgt in Hle. discriminate.
  - intros x Hx Hxq. apply Hlatest; [|assumption].
    rewrite Heq. apply List.in_app_iff. auto.
Qed.

(** ** Months *)

Lemma astro_civil a : astro (civil a) = a.
Proof.
  unfold astro, civil. destruct (Z.leb_spec a 0).
  - destruct (Z.ltb_spec (a - 1) 0); lia.
  - destruct (Z.ltb_spec a 0); lia.
Qed.

Lemma civil_astro y : y <> 0 -> civil (astro y) = y.
Proof.
  intros Hy. unfold astro, civil. destruct (Z.ltb_spec y 0).
  - destruct (Z.leb_spec (y + 1) 0); lia.
  - destruct (Z.leb_spec y 0); lia.
Qed.

Lemma civil_nonzero a : civil a <> 0.
Proof. unfold civil. destruct (Z.leb_spec a 0); lia. Qed.

Lemma astro_lt y y' : y <> 0 -> y' <> 0 -> (astro y < astro y' <-> y < y').
Proof.
  intros Hy Hy'. unfold astro.
  destruct (Z.ltb_spec y 0), (Z.ltb_spec y' 0); lia.
Qed.

Lemma month_start_valid o : isValid (month_start o) = true.
Proof.
  unfold month_start. simpl. apply validYMD_iff.
  pose proof (civil_nonzero (o / 12)).
  pose proof (Z.mod_pos_bound o 12 ltac:(lia)).
  pose proof (monthDays_ge_28 (civil (o / 12)) (o mod 12 + 1) ltac:(lia)). lia.
Qed.

Lemma month_start_ordinal o : date_ordinal (month_start o) = o.
Proof.
  unfold date_ordinal, month_ordinal, month_start. simpl.
  rewrite astro_civil. pose proof (Z.div_mod o 12 ltac:(lia)). lia.
Qed.

Lemma month_start_of_ordinal y m :
  y <> 0 -> 1 <= m <= 12 -> month_start (month_ordinal y m) = Date y m 1.
Proof.
  intros Hy Hm. unfold month_start, month_ordinal.
  replace ((astro y * 12 + (m - 1)) / 12) with (astro y)
    by (Z.to_euclidean_division_equations; lia).
  replace ((astro y * 12 + (m - 1)) mod 12) with (m - 1)
    by (Z.to_euclidean_division_equations; lia).
  rewrite civil_astro by assumption. f_equal. lia.
Qed.

Lemma first_of_month q :
  isValid q = true -> mkQDate (year q) (month q) 1 = month_start (date_ordinal q).
Proof.
  destruct q as [|y m d]; [discriminate|]. simpl. intros Hv.
  apply validYMD_iff in Hv. unfold date_ordinal. simpl.
  rewrite month_start_of_ordinal by lia.
  apply mkQDate_valid, validYMD_iff.
  pose proof (monthDays_ge_28 y m ltac:(lia)). lia.
Qed.

Lemma addMonths_1_spec q :
  isValid q = true ->
  isValid (addMonths 1 q) = true
  /\ date_ordinal (addMonths 1 q) = date_ordinal q + 1
  /\ day (addMonths 1 q) <= day q.
Proof.
  destruct q as [|y m d]; [discriminate|]. intros Hv.
  unfold addMonths. rewrite Hv. simpl negb. cbv iota.
  change (1 =? 0) with false. cbv iota. cbv zeta.
  simpl in Hv. apply validYMD_iff in Hv.
  set (t := astro y * 12 + (m - 1) + 1).
  pose proof (civil_nonzero (t / 12)).
  pose proof (Z.mod_pos_bound t 12 ltac:(lia)).
  pose proof (monthDays_ge_28 (civil (t / 12)) (t mod 12 + 1) ltac:(lia)).
  unfold fixedDate. rewrite mkQDate_valid by (apply validYMD_iff; lia).
  repeat split.
  - simpl. apply validYMD_iff. lia.
  - unfold date_ordinal, month_ordinal. simpl. rewrite astro_civil.
    pose proof (Z.div_mod t 12 ltac:(lia)). unfold t in *. lia.
  - simpl. lia.
Qed.

Lemma addMonths_1_month_start o : addMonths 1 (month_start o) = month_start (o + 1).
Proof.
  pose proof (month_start_valid o) as Hv.
  unfold addMonths, month_start in *. rewrite Hv. simpl negb. cbv iota.
  change (1 =? 0) with false. cbv iota. cbv zeta.
  rewrite astro_civil.
  replace (o / 12 * 12 + (o mod 12 + 1 - 1) + 1) with (o + 1)
    by (pose proof (Z.div_mod o 12 ltac:(lia)); lia).
  pose proof (civil_nonzero ((o + 1) / 12)).
  pose proof (Z.mod_pos_bound (o + 1) 12 ltac:(lia)).
  pose proof (monthDays_ge_28 (civil ((o + 1) / 12)) ((o + 1) mod 12 + 1) ltac:(lia)).
  unfold fixedDate. rewrite Z.min_l by lia.
  apply mkQDate_valid, validYMD_iff. lia.
Qed.

Lemma ordinal_lt_date_ltb a b :
  isValid a = true -> isValid b = true ->
  date_ordinal a < date_ordinal b -> date_ltb a b = true.
Proof.
  destruct a as [|y m d]; [discriminate|]. destruct b as [|y' m' d']; [discriminate|].
  simpl. intros Ha Hb. apply validYMD_iff in Ha, Hb.
  unfold date_ordinal, month_ordinal. simpl. intros Hlt. bool_prop.
  pose proof (astro_lt y y' ltac:(lia) ltac:(lia)).
  pose proof (astro_lt y' y ltac:(lia) ltac:(lia)).
  destruct (Z.lt_trichotomy y y') as [?|[?|?]]; [lia| |lia].
  subst y'. right. split; [reflexivity|]. left. lia.
Qed.

Lemma date_ltb_ordinal_le a b :
  isValid a = true -> isValid b = true ->
  date_ltb a b = true -> date_ordinal a <= date_ordinal b.
Proof.
  intros Ha Hb Hlt.
  destruct (Z.le_gt_cases (date_ordinal a) (date_ordinal b)) as [?|Hgt]; [assumption|].
  apply (ordinal_lt_date_ltb b a Hb Ha) in Hgt.
  rewrite (date_ltb_asym _ _ Hgt) in Hlt. discriminate.
Qed.

Lemma same_ordinal a b :
  isValid a = true -> isValid b = true ->
  date_ordinal a = date_ordinal b -> year a = year b /\ month a = month b.
Proof.
  destruct a as [|y m d]; [discriminate|]. destruct b as [|y' m' d']; [discriminate|].
  simpl. intros Ha Hb. apply validYMD_iff in Ha, Hb.
  unfold date_ordinal, month_ordinal. simpl. intros Heq.
  assert (astro y = astro y') by lia.
  assert (y = y').
  { rewrite <- (civil_astro y), <- (civil_astro y') by lia. congruence. }
  lia.
Qed.

Lemma month_start_ltb o e :
  isValid e = true ->
  date_ltb (month_start o) e
  = (o <? date_ordinal e) || ((o =? date_ordinal e) && (1 <? day e)).
Proof.
  intros He. pose proof (month_start_valid o) as Hv.
  pose proof (month_start_ordinal o) as Ho.
  destruct (Z.lt_trichotomy o (date_ordinal e)) as [Hlt|[Heq|Hgt]].
  - rewrite ordinal_lt_date_ltb by (trivial; lia).
    symmetry. bool_prop. lia.
  - destruct (same_ordinal (month_start o) e Hv He ltac:(lia)) as [Hy Hm].
    replace (o <? date_ordinal e) with false by (symmetry; apply Z.ltb_ge; lia).
    replace (o =? date_ordinal e) with true by (symmetry; apply Z.eqb_eq; lia).
    destruct e as [|y m d]; [discriminate|]. simpl in *. rewrite Hy, Hm.
    rewrite !Z.ltb_irrefl, !Z.eqb_refl. reflexivity.
  - rewrite (date_ltb_asym e (month_start o))
      by (apply ordinal_lt_date_ltb; trivial; lia).
    symmetry. bool_prop. lia.
Qed.

Lemma is_closing_month_start o e :
  isValid e = true -> is_closing_month (month_start o) e = (o =? date_ordinal e).
Proof.
  intros He. pose proof (month_start_valid o) as Hv.
  pose proof (month_start_ordinal o) as Ho. unfold is_closing_month.
  destruct (Z.eqb_spec o (date_ordinal e)) as [Heq|Hne].
  - destruct (same_ordinal (month_start o) e Hv He ltac:(lia)) as [-> ->].
    now rewrite !Z.eqb_refl.
  - apply andb_false_iff.
    destruct (Z.eqb_spec (year (month_start o)) (year e)) as [Hy|]; [|now left].
    destruct (Z.eqb_spec (month (month_start o)) (month e)) as [Hm|]; [|now right].
    exfalso. apply Hne. rewrite <- Ho. unfold date_ordinal. now rewrite Hy, Hm.
Qed.

(** ** Month keys are distinct *)

Lemma digit_char_inj a b : 0 <= a <= 9 -> 0 <= b <= 9 -> digit_char a = digit_char b -> a = b.
Proof.
  intros Ha Hb H. apply (f_equal digit_val) in H.
  rewrite !digit_val_char in H by assumption. congruence.
Qed.

Lemma digit_char_not_minus a : 0 <= a <= 9 -> digit_char a <> "-"%char.
Proof.
  intros Ha H. apply (f_equal nat_of_ascii) in H. unfold digit_char in H.
  rewrite nat_ascii_embedding in H by lia.
  change (nat_of_ascii "-") with 45%nat in H. lia.
Qed.

Lemma digits_length w n : String.length (digits w n) = w.
Proof. induction w as [|w IH]; simpl; congruence. Qed.

Lemma digits_inj w : forall n n',
  digits w n = digits w n' -> n mod 10 ^ Z.of_nat w = n' mod 10 ^ Z.of_nat w.
Proof.
  induction w as [|w IH]; intros n n' H.
  - simpl. now rewrite !Z.mod_1_r.
  - simpl in H. injection H as Hc Hrest. apply IH in Hrest.
    apply digit_char_inj in Hc; try (apply Z.mod_pos_bound; lia).
    + rewrite Nat2Z.inj_succ, Z.pow_succ_r, Z.mul_comm by lia.
      assert (0 < 10 ^ Z.of_nat w) by (apply Z.pow_pos_nonneg; lia).
      rewrite !Z.rem_mul_r by lia. congruence.
    + pose proof (Z.mod_pos_bound (n / 10 ^ Z.of_nat w) 10 ltac:(lia)). lia.
    + pose proof (Z.mod_pos_bound (n' / 10 ^ Z.of_nat w) 10 ltac:(lia)). lia.
Qed.

Lemma ndigits_aux_bound fuel : forall n,
  0 <= n < 2 ^ (Z.of_nat fuel + 1) -> n < 10 ^ Z.of_nat (ndigits_aux fuel n).
Proof.
  induction fuel as [|fuel IH]; intros n Hn.
  - simpl in *. lia.
  - cbn [ndigits_aux]. destruct (Z.ltb_spec n 10); [simpl; lia|].
    rewrite Nat2Z.inj_succ, Z.pow_succ_r by lia.
    assert (Hd : 0 <= n / 10 < 2 ^ (Z.of_nat fuel + 1)).
    { split; [apply Z.div_pos; lia|].
      apply Z.div_lt_upper_bound; [lia|].
      replace (Z.of_nat (S fuel) + 1) with (Z.succ (Z.of_nat fuel + 1)) in Hn by lia.
      rewrite Z.pow_succ_r in Hn by lia. lia. }
    specialize (IH _ Hd).
    pose proof (Z.div_mod n 10 ltac:(lia)).
    pose proof (Z.mod_pos_bound n 10 ltac:(lia)). lia.
Qed.

Lemma ndigits_bound n : 0 <= n -> n < 10 ^ Z.of_nat (ndigits n).
Proof.
  intros Hn. unfold ndigits. apply ndigits_aux_bound.
  destruct (Z.eq_dec n 0) as [->|]; [simpl; lia|].
  pose proof (Z.log2_spec n ltac:(lia)) as Hl.
  pose proof (Z.log2_nonneg n).
  rewrite Z2Nat.id by assumption. unfold Z.succ in Hl. lia.
Qed.

Lemma zero_padded_inj w n n' :
  0 <= n -> 0 <= n' -> zero_padded w n = zero_padded w n' -> n = n'.
Proof.
  intros Hn Hn' H. unfold zero_padded in H.
  assert (Hw : Nat.max w (ndigits n) = Nat.max w (ndigits n')).
  { apply (f_equal String.length) in H. now rewrite !digits_length in H. }
  rewrite <- Hw in H. apply digits_inj in H.
  assert (Hb : forall k, 0 <= k -> (ndigits k <= Nat.max w (ndigits n))%nat ->
                         k < 10 ^ Z.of_nat (Nat.max w (ndigits n))).
  { intros k Hk Hle. apply Z.lt_le_trans with (10 ^ Z.of_nat (ndigits k)).
    - now apply ndigits_bound.
    - apply Z.pow_le_mono_r; lia. }
  rewrite !Z.mod_small in H; trivial.
  - split; [assumption|]. apply Hb; [assumption|]. rewrite Hw. lia.
  - split; [assumption|]. apply Hb; [assumption|]. lia.
Qed.

Lemma zero_padded_head w n :
  (1 <= w)%nat ->
  exists a s, 0 <= a <= 9 /\ zero_padded w n = String (digit_char a) s.
Proof.
  intros Hw. unfold zero_padded.
  destruct (Nat.max w (ndigits n)) as [|k] eqn:E; [lia|].
  simpl. eexists _, _. split; [|reflexivity].
  pose proof (Z.mod_pos_bound (n / 10 ^ Z.of_nat k) 10 ltac:(lia)). lia.
Qed.

Lemma yyyy_inj y y' : yyyy y = yyyy y' -> y = y'.
Proof.
  unfold yyyy. intros H.
  destruct (zero_padded_head 4 (Z.abs y) ltac:(lia)) as (a & s & Ha & Hs).
  destruct (zero_padded_head 4 (Z.abs y') ltac:(lia)) as (a' & s' & Ha' & Hs').
  destruct (Z.ltb_spec y 0), (Z.ltb_spec y' 0); simpl in H.
  - injection H as H. apply zero_padded_inj in H; lia.
  - rewrite Hs' in H. injection H as H _. symmetry in H.
    now apply digit_char_not_minus in H.
  - rewrite Hs in H. injection H as H _. now apply digit_char_not_minus in H.
  - apply zero_padded_inj in H; lia.
Qed.

Lemma append_cons c (s t : string) : (String c s +:+ t = String c (s +:+ t))%string.
Proof. reflexivity. Qed.

Lemma append_nil (t : string) : (EmptyString +:+ t = t)%string.
Proof. reflexivity. Qed.

Lemma string_length_append (s t : string) :
  String.length (s +:+ t) = (String.length s + String.length t)%nat.
Proof.
  induction s as [|c s IH]; [reflexivity|].
  rewrite append_cons. simpl. congruence.
Qed.

Lemma append_inj (s s' t t' : string) :
  String.length t = String.length t' ->
  (s +:+ t = s' +:+ t')%string -> s = s' /\ t = t'.
Proof.
  revert s'. induction s as [|c s IH]; intros s' Hlen H.
  - destruct s' as [|c' s']; [now split|].
    apply (f_equal String.length) in H.
    rewrite append_nil, append_cons in H. simpl in H.
    rewrite string_length_append in H. lia.
  - destruct s' as [|c' s'].
    + apply (f_equal String.length) in H.
      rewrite append_nil, append_cons in H. simpl in H.
      rewrite string_length_append in H. lia.
    + rewrite !append_cons in H.
      injection H as -> H. destruct (IH s' Hlen H) as [-> ->]. now split.
Qed.

Lemma month_key_inj y m y' m' :
  validYMD y m 1 = true -> validYMD y' m' 1 = true ->
  toString (Date y m 1) yyyy_MM = toString (Date y' m' 1) yyyy_MM ->
  y = y' /\ m = m'.
Proof.
  intros Hv Hv'. unfold toString. simpl isValid. rewrite Hv, Hv'. simpl negb. cbv iota.
  apply validYMD_iff in Hv, Hv'. intros H.
  apply append_inj in H.
  - destruct H as [Hy Hm]. apply yyyy_inj in Hy.
    rewrite !append_cons, !append_nil in Hm.
    injection Hm as Hm. apply zero_padded_inj in Hm; lia.
  - rewrite !string_length_append, !(zero_padded_small 2) by (simpl; lia).
    now rewrite !digits_length.
Qed.

Lemma month_key_of_inj o o' : month_key_of o = month_key_of o' -> o = o'.
Proof.
  unfold month_key_of. intros H.
  pose proof (month_start_valid o) as Hv. pose proof (month_start_valid o') as Hv'.
  pose proof (month_start_ordinal o) as Ho. pose proof (month_start_ordinal o') as Ho'.
  unfold month_start in *. simpl in Hv, Hv'.
  destruct (month_key_inj _ _ _ _ Hv Hv' H) as [Hy Hm].
  unfold date_ordinal in Ho, Ho'. simpl in Ho, Ho'. rewrite Hy, Hm in Ho. lia.
Qed.

(** ** The monthly plan loop *)

Lemma plan_after_fields base data first k :
  current_date (plan_after base data first k) = month_start (first + Z.of_nat k)
  /\ month_index (plan_after base data first k) = Z.of_nat k
  /\ cumulative_fact (plan_after base data first k) = cumulative_through data first k.
Proof.
  induction k as [|k (Hd & Hi & Hc)].
  - simpl. rewrite Z.add_0_r. auto.
  - cbn [plan_after plan_month current_date month_index cumulative_fact cumulative_through].
    rewrite Hd, Hi, Hc, addMonths_1_month_start.
    repeat split; [f_equal; lia | lia].
Qed.

Lemma plan_after_succ_plans base data first k :
  monthly_plans (plan_after base data first (S k))
  = <[month_key_of (first + Z.of_nat k) :=
        adjusted_plan base (cumulative_through data first (S k)) (Z.of_nat (S k))]>
      (monthly_plans (plan_after base data first k)).
Proof.
  destruct (plan_after_fields base data first k) as (Hd & Hi & Hc).
  cbn [plan_after plan_month monthly_plans cumulative_through].
  rewrite Hd, Hi, Hc. unfold month_key_of. do 2 f_equal. lia.
Qed.

Lemma plan_after_lookup_some base data first k key v :
  monthly_plans (plan_after base data first k) !! key = Some v ->
  exists j, (j < k)%nat /\ key = month_key_of (first + Z.of_nat j)
            /\ v = adjusted_plan base (cumulative_through data first (S j)) (Z.of_nat (S j)).
Proof.
  induction k as [|k IH].
  - simpl. rewrite lookup_empty. discriminate.
  - rewrite plan_after_succ_plans.
    destruct (decide (month_key_of (first + Z.of_nat k) = key)) as [<-|Hne].
    + rewrite lookup_insert_eq. intros [= <-]. exists k. auto.
    + rewrite lookup_insert_ne by assumption. intros H.
      destruct (IH H) as (j & Hj & Hk & Hv). exists j. auto.
Qed.

Lemma plan_after_lookup base data first k j :
  (j < k)%nat ->
  monthly_plans (plan_after base data first k) !! month_key_of (first + Z.of_nat j)
  = Some (adjusted_plan base (cumulative_through data first (S j)) (Z.of_nat (S j))).
Proof.
  induction k as [|k IH]; [lia|]. intros Hj.
  rewrite plan_after_succ_plans.
  destruct (Nat.eq_dec j k) as [->|Hne].
  - apply lookup_insert_eq.
  - rewrite lookup_insert_ne; [apply IH; lia|].
    intros Heq. apply month_key_of_inj in Heq. lia.
Qed.

Lemma plans_loop_run end_date base data first : forall n k fuel,
  isValid end_date = true ->
  first + Z.of_nat k + Z.of_nat n = date_ordinal end_date ->
  (n + 2 <= fuel)%nat ->
  plans_loop fuel end_date base data (plan_after base data first k)
  = Ok (monthly_plans (plan_after base data first (k + n))).
Proof.
  induction n as [|n IH]; intros k fuel He Hord Hfuel.
  - destruct fuel as [|[|fuel]]; try lia.
    destruct (plan_after_fields base data first k) as (Hd & _).
    rewrite Nat.add_0_r. cbn [plans_loop]. rewrite Hd.
    rewrite month_start_ltb, is_closing_month_start by assumption.
    replace (first + Z.of_nat k <? date_ordinal end_date) with false
      by (symmetry; apply Z.ltb_ge; lia).
    replace (first + Z.of_nat k =? date_ordinal end_date) with true
      by (symmetry; apply Z.eqb_eq; lia).
    simpl orb. simpl andb.
    destruct (1 <? day end_date); [|reflexivity].
    cbn [current_date monthly_plans].
    rewrite addMonths_1_month_start, month_start_ltb by assumption.
    replace (first + Z.of_nat k + 1 <? date_ordinal end_date) with false
      by (symmetry; apply Z.ltb_ge; lia).
    replace (first + Z.of_nat k + 1 =? date_ordinal end_date) with false
      by (symmetry; apply Z.eqb_neq; lia).
    reflexivity.
  - destruct fuel as [|fuel]; [lia|].
    destruct (plan_after_fields base data first k) as (Hd & _).
    cbn [plans_loop]. rewrite Hd.
    rewrite month_start_ltb, is_closing_month_start by assumption.
    replace (first + Z.of_nat k <? date_ordinal end_date) with true
      by (symmetry; apply Z.ltb_lt; lia).
    replace (first + Z.of_nat k =? date_ordinal end_date) with false
      by (symmetry; apply Z.eqb_neq; lia).
    simpl orb. cbv iota.
    change (plan_month base data (plan_after base data first k))
      with (plan_after base data first (S k)).
    rewrite (IH (S k) fuel) by (trivial; lia).
    do 3 f_equal. lia.
Qed.

Lemma plans_loop_empty end_date base data first fuel :
  isValid end_date = true ->
  date_ordinal end_date < first ->
  (1 <= fuel)%nat ->
  plans_loop fuel end_date base data (plan_start first) = Ok ∅.
Proof.
  intros He Hlt Hfuel. destruct fuel as [|fuel]; [lia|].
  cbn [plans_loop plan_start current_date monthly_plans].
  rewrite month_start_ltb by assumption.
  replace (first <? date_ordinal end_date) with false
    by (symmetry; apply Z.ltb_ge; lia).
  replace (first =? date_ordinal end_date) with false
    by (symmetry; apply Z.eqb_neq; lia).
  reflexivity.
Qed.

(** What [calculate_monthly_plans] returns for a contract with a non-zero
    amount and valid dates: the plans of the included months. *)
Lemma calculate_monthly_plans_run fuel today db :
  let cs := get_contract_settings today db in
  isValid (start_date cs) = true ->
  isValid (end_date cs) = true ->
  ~ (contract_amount cs == 0)%Q ->
  (included_months cs + 2 <= fuel)%nat ->
  calculate_monthly_plans fuel today db
  = Ok (monthly_plans
          (plan_after
             (contract_amount cs
              / inject_Z (_get_months_between_dates_including_start_excluding_end
                            (start_date cs) (end_date cs)))%Q
             (get_all_daily_data db)
             (date_ordinal (start_date cs))
             (included_months cs))).
Proof.
  intros cs Hs He Ha Hfuel. unfold calculate_monthly_plans. fold cs.
  destruct (Qeq_bool (contract_amount cs) 0) eqn:E;
    [apply Qeq_bool_iff in E; tauto|].
  set (n := _get_months_between_dates_including_start_excluding_end _ _).
  assert (Hn : 1 <= n)
    by (unfold n, _get_months_between_dates_including_start_excluding_end; lia).
  replace (n =? 0) with false by (symmetry; apply Z.eqb_neq; lia).
  rewrite py_div_inject_Z_pos by assumption. cbn [bind].
  rewrite first_of_month by assumption.
  unfold included_months in *.
  destruct (Z.le_gt_cases (date_ordinal (start_date cs)) (date_ordinal (end_date cs)))
    as [Hle|Hgt].
  - change {| current_date := month_start (date_ordinal (start_date cs));
              month_index := 0; cumulative_fact := 0; monthly_plans := ∅ |}
      with (plan_after (contract_amount cs / inject_Z n)%Q (get_all_daily_data db)
              (date_ordinal (start_date cs)) 0).
    rewrite (plans_loop_run _ _ _ _
               (Z.to_nat (date_ordinal (end_date cs) - date_ordinal (start_date cs))));
      trivial; lia.
  - replace (Z.to_nat _) with 0%nat by lia.
    apply plans_loop_empty; trivial; lia.
Qed.

(** ** Plans without deposits *)

Lemma Qgtb_true a b : Qgtb a b = true <-> (b < a)%Q.
Proof.
  unfold Qgtb. rewrite negb_true_iff. split.
  - intros H. apply Qnot_le_lt. intros Hle. apply Qle_bool_iff in Hle. congruence.
  - intros H. destruct (Qle_bool a b) eqn:E; [|reflexivity].
    apply Qle_bool_iff in E. exfalso. exact (Qlt_not_le _ _ H E).
Qed.

Lemma Qgtb_false a b : Qgtb a b = false <-> (a <= b)%Q.
Proof. unfold Qgtb. rewrite negb_false_iff. apply Qle_bool_iff. Qed.

Lemma get_all_daily_data_empty db : daily_data db = [] -> get_all_daily_data db = ∅.
Proof. unfold get_all_daily_data. now intros ->. Qed.





Lemma plan_after_size base data first k :
  size (monthly_plans (plan_after base data first k)) = k.
Proof.
  induction k as [|k IH]; [apply map_size_empty|].
  rewrite plan_after_succ_plans, map_size_insert_None; [now rewrite IH|].
  destruct (monthly_plans (plan_after base data first k)
              !! month_key_of (first + Z.of_nat k)) as [v|] eqn:E; [|reflexivity].
  apply plan_after_lookup_some in E. destruct E as (j & Hj & Hk & _).
  apply month_key_of_inj in Hk. lia.
Qed.

Lemma ordinal_common_era q :
  isValid q = true -> 1 <= year q -> date_ordinal q = year q * 12 + month q - 1.
Proof.
  intros _ Hy. unfold date_ordinal, month_ordinal, astro.
  replace (year q <? 0) with false by (symmetry; apply Z.ltb_ge; lia). lia.
Qed.



(** ** Plans with deposits *)

Lemma py_max0_spec x : (py_max0 x == Qmax 0 x)%Q /\ (0 <= py_max0 x)%Q.
Proof.
  unfold py_max0. destruct (Qgtb x 0) eqn:E.
  - apply Qgtb_true in E. split; [|now apply Qlt_le_weak].
    symmetry. apply Q.max_r. now apply Qlt_le_weak.
  - apply Qgtb_false in E. split; [|apply Qle_refl].
    symmetry. now apply Q.max_l.
Qed.

Lemma adjusted_plan_spec base cum idx :
  (0 < base)%Q ->
  let target := (base * inject_Z idx)%Q in
  (0 <= adjusted_plan base cum idx)%Q
  /\ (target < cum ->
      adjusted_plan base cum idx == Qmax 0 (base - (cum - target))
      /\ adjusted_plan base cum idx < base)%Q
  /\ (cum <= target -> adjusted_plan base cum idx = base)%Q.
Proof.
  intros Hb target. unfold adjusted_plan. fold target.
  destruct (Qgtb cum target) eqn:E.
  - apply Qgtb_true in E.
    destruct (py_max0_spec (base - (cum - target))) as [Hmax Hpos].
    split; [assumption|]. split.
    + intros _. split; [assumption|].
      rewrite Hmax. apply Q.max_lub_lt; [assumption|]. lra.
    + intros Hle. exfalso. lra.
  - apply Qgtb_false in E.
    split; [now apply Qlt_le_weak|]. split.
    + intros Hlt. exfalso. lra.
    + reflexivity.
Qed.

(** C2, amended: for a contract of amount [A > 0] with valid dates, the
    month of index [k] (counted from 1) gets the plan
    [max(0, base - overage)], strictly less than [base], when the
    deposits through that same month [k], its own included, exceed
    [base * k] by [overage]; it gets [base] otherwise; and no plan value
    is negative. *)
Theorem overpayment_reduces_current_month
    (fuel : nat) (today : QDate) (db : database) (j : nat) :
  let cs := get_contract_settings today db in
  let n := _get_months_between_dates_including_start_excluding_end
             (start_date cs) (end_date cs) in
  let base := (contract_amount cs / inject_Z n)%Q in
  let first := date_ordinal (start_date cs) in
  let cum := cumulative_through (get_all_daily_data db) first (S j) in
  let target := (base * inject_Z (Z.of_nat (S j)))%Q in
  isValid (start_date cs) = true ->
  isValid (end_date cs) = true ->
  (0 < contract_amount cs)%Q ->
  (included_months cs + 2 <= fuel)%nat ->
  (j < included_months cs)%nat ->
  exists plans v,
    calculate_monthly_plans fuel today db = Ok plans
    /\ plans !! month_key_of (first + Z.of_nat j) = Some v
    /\ (target < cum -> v == Qmax 0 (base - (cum - target)) /\ v < base)%Q
    /\ (cum <= target -> v = base)%Q
    /\ (forall key w, plans !! key = Some w -> 0 <= w)%Q.
Proof.
  intros cs n base first cum target Hs He HA Hfuel Hj.
  assert (Hn : 1 <= n)
    by (unfold n, _get_months_between_dates_including_start_excluding_end; lia).
  assert (Hbase : (0 < base)%Q).
  { unfold base. apply Qlt_shift_div_l.
    - change 0%Q with (inject_Z 0). rewrite <- Zlt_Qlt. lia.
    - now rewrite Qmult_0_l. }
  eexists. exists (adjusted_plan base cum (Z.of_nat (S j))). split.
  { apply calculate_monthly_plans_run; trivial.
    intros Hz. fold cs in Hz. rewrite Hz in HA. discriminate. }
  fold cs n base first.
  destruct (adjusted_plan_spec base cum (Z.of_nat (S j)) Hbase) as (_ & Hover & Hunder).
  split; [now apply plan_after_lookup|].
  split; [exact Hover|]. split; [exact Hunder|].
  intros key w Hw. apply plan_after_lookup_some in Hw.
  destruct Hw as (i & _ & _ & ->).
  now apply adjusted_plan_spec.
Qed.

(** ** The daily simulation *)

Lemma nextDay_valid q : isValid q = true -> isValid (nextDay q) = true.
Proof.
  destruct q as [|y m d]; [discriminate|]. intros Hv.
  unfold nextDay. rewrite Hv. simpl negb. cbv iota.
  simpl in Hv. apply validYMD_iff in Hv.
  destruct (Z.ltb_spec d (monthDays y m)).
  - simpl. apply validYMD_iff. lia.
  - destruct (Z.ltb_spec m 12).
    + simpl. apply validYMD_iff.
      pose proof (monthDays_ge_28 y (m + 1) ltac:(lia)). lia.
    + simpl. apply validYMD_iff.
      pose proof (civil_nonzero (astro y + 1)).
      pose proof (monthDays_ge_28 (civil (astro y + 1)) 1 ltac:(lia)). lia.
Qed.

Lemma addDays_succ n q : addDays (S n) q = nextDay (addDays n q).
Proof. reflexivity. Qed.

Lemma addDays_valid n q : isValid q = true -> isValid (addDays n q) = true.
Proof.
  intros Hv. induction n as [|n IH]; [assumption|].
  rewrite addDays_succ. now apply nextDay_valid.
Qed.

Lemma daysInYear_valid q : isValid q = true -> 365 <= daysInYear q <= 366.
Proof.
  destruct q as [|y m d]; [discriminate|]. intros _. simpl.
  destruct (isLeapYear y); lia.
Qed.

Lemma daily_interest_of_valid cs q balance :
  isValid q = true ->
  daily_interest_of cs q balance
  = Ok (balance * get_effective_rate_on_date q cs / 100
        / inject_Z (daysInYear q))%Q.
Proof.
  intros Hv. unfold daily_interest_of.
  apply py_div_inject_Z_pos. pose proof (daysInYear_valid q Hv). lia.
Qed.


(** One day: interest first, on the balance the day starts with; then
    the deposit. *)
Lemma simulate_day_spec cs all_payments target_period_start s :
  isValid (iter_date s) = true ->
  exists i s',
    interest_of_day cs s = Ok i
    /\ simulate_day cs all_payments target_period_start s = Ok s'
    /\ iter_date s' = addDays 1 (iter_date s)
    /\ (current_balance s' == current_balance s + i + deposit_of_day all_payments s)%Q
    /\ (interest_for_target_period s'
        == interest_for_target_period s
           + (if date_geb (iter_date s) target_period_start then i else 0))%Q.
Proof.
  intros Hv. unfold interest_of_day, simulate_day, capitalize, deposit_of_day.
  destruct (Qgtb (current_balance s) 0).
  - rewrite daily_interest_of_valid by assumption. cbn [bind].
    eexists _, _. split; [reflexivity|]. split; [reflexivity|].
    cbn [deposit_and_advance iter_date current_balance interest_for_target_period].
    split; [reflexivity|]. split.
    + destruct (all_payments !! toString (iter_date s) yyyy_MM_dd); ring.
    + destruct (date_geb (iter_date s) target_period_start); ring.
  - cbn [bind]. eexists _, _. split; [reflexivity|]. split; [reflexivity|].
    cbn [deposit_and_advance iter_date current_balance interest_for_target_period].
    split; [reflexivity|]. split.
    + destruct (all_payments !! toString (iter_date s) yyyy_MM_dd); ring.
    + destruct (date_geb (iter_date s) target_period_start); ring.
Qed.


Section SingleDeposit.
Variable cs : contract_settings.
Variable target_period_start : QDate.
Hypothesis start_valid : isValid (start_date cs) = true.
Hypothesis rate_positive : forall q, (0 < get_effective_rate_on_date q cs)%Q.



End SingleDeposit.


(** ** The simulation terminates *)

Lemma day_rank_next q :
  isValid q = true -> day_rank q < day_rank (nextDay q).
Proof.
  destruct q as [|y m d]; [discriminate|]. intros Hv.
  unfold nextDay. rewrite Hv. simpl negb. cbv iota.
  simpl in Hv. apply validYMD_iff in Hv.
  pose proof (monthDays_ge_28 y m ltac:(lia)).
  destruct (Z.ltb_spec d (monthDays y m)); [unfold day_rank; cbn [year month day]; lia|].
  destruct (Z.ltb_spec m 12); [unfold day_rank; cbn [year month day]; lia|].
  unfold day_rank. cbn [year month day]. rewrite astro_civil. lia.
Qed.

Lemma day_rank_lt a b :
  isValid a = true -> isValid b = true ->
  date_ltb a b = true -> day_rank a < day_rank b.
Proof.
  destruct a as [|y m d]; [discriminate|]. destruct b as [|y' m' d']; [discriminate|].
  simpl. intros Ha Hb Hlt. apply validYMD_iff in Ha, Hb.
  pose proof (monthDays_ge_28 y m ltac:(lia)).
  pose proof (monthDays_ge_28 y' m' ltac:(lia)).
  pose proof (astro_lt y y' ltac:(lia) ltac:(lia)).
  unfold day_rank. cbn [year month day]. bool_prop.
  destruct Hlt as [Hlt|[-> Hlt]]; lia.
Qed.

Lemma day_rank_le a b :
  isValid a = true -> isValid b = true ->
  date_ltb b a = false -> day_rank a <= day_rank b.
Proof.
  intros Ha Hb Hnlt.
  destruct (Z.le_gt_cases (day_rank a) (day_rank b)) as [?|Hgt]; [assumption|].
  exfalso.
  destruct (date_ltb a b) eqn:E.
  - apply day_rank_lt in E; trivial. lia.
  - assert (a = b).
    { destruct a as [|y m d]; [discriminate|]. destruct b as [|y' m' d']; [discriminate|].
      simpl in E, Hnlt. bool_prop. f_equal; lia. }
    subst. lia.
Qed.

Lemma interest_loop_total cs all_payments target_period_start simulation_end_date :
  forall n fuel s,
    isValid (iter_date s) = true ->
    (simulation_end_date = NullDate \/ isValid simulation_end_date = true) ->
    day_rank simulation_end_date - day_rank (iter_date s) <= Z.of_nat n ->
    (n + 1 <= fuel)%nat ->
    exists v,
      interest_loop fuel cs all_payments target_period_start simulation_end_date s = Ok v.
Proof.
  induction n as [|n IH]; intros fuel s Hv He Hrank Hfuel;
    (destruct fuel as [|fuel]; [lia|]); cbn [interest_loop];
    destruct (date_ltb (iter_date s) simulation_end_date) eqn:Elt; eauto.
  - exfalso. destruct He as [->|He]; [destruct (iter_date s); discriminate|].
    apply day_rank_lt in Elt; trivial. lia.
  - destruct He as [->|He]; [destruct (iter_date s); discriminate|].
    destruct (simulate_day_spec cs all_payments target_period_start s Hv)
      as (i & s' & _ & Hs' & Hd & _).
    rewrite Hs'. cbn [bind]. apply IH; auto; [| |lia].
    + rewrite Hd. now apply (addDays_valid 1).
    + rewrite Hd. change (addDays 1 (iter_date s)) with (nextDay (iter_date s)).
      pose proof (day_rank_next (iter_date s) Hv). lia.
Qed.

Lemma accrual_date_valid_or_null start_date y m :
  accrual_date_of start_date y m = NullDate
  \/ (isValid (accrual_date_of start_date y m) = true
      /\ year (accrual_date_of start_date y m) = y
      /\ month (accrual_date_of start_date y m) = m).
Proof.
  unfold accrual_date_of.
  assert (Hmk : forall d, mkQDate y m d = NullDate
                          \/ (isValid (mkQDate y m d) = true
                              /\ year (mkQDate y m d) = y /\ month (mkQDate y m d) = m)).
  { intros d. unfold mkQDate. destruct (validYMD y m d) eqn:E; [right|left]; auto. }
  destruct (isValid (mkQDate y m (day start_date))) eqn:E; simpl negb; cbv iota.
  - destruct (Hmk (day start_date)) as [H|H]; [rewrite H in E; discriminate|now right].
  - apply Hmk.
Qed.

Lemma date_min_valid_or_null a b :
  (a = NullDate \/ isValid a = true) -> isValid b = true ->
  date_min a b = NullDate \/ isValid (date_min a b) = true.
Proof. intros Ha Hb. unfold date_min. destruct (date_ltb b a); auto. Qed.

Lemma date_min_rank a b :
  isValid a = true -> isValid b = true -> day_rank (date_min a b) <= day_rank a.
Proof.
  intros Ha Hb. unfold date_min. destruct (date_ltb b a) eqn:E; [|lia].
  apply day_rank_lt in E; trivial. lia.
Qed.

(** The interest of a month is computed, whatever the month, once the
    fuel covers the days from the start to the end of that year. *)
Lemma calculate_monthly_interest_total fuel today db y m :
  isValid (start_date (get_contract_settings today db)) = true ->
  isValid today = true ->
  (Z.to_nat (372 * (astro y - astro (year (start_date (get_contract_settings today db))) + 1))
   + 1 <= fuel)%nat ->
  exists v, calculate_monthly_interest fuel today db y m = Ok v.
Proof.
  intros Hs Ht Hfuel. unfold calculate_monthly_interest.
  set (cs := get_contract_settings today db) in *.
  set (accrual := accrual_date_of (start_date cs) y m).
  destruct (date_leb accrual (start_date cs)) eqn:Ele; [eauto|].
  destruct (date_geb _ _); [eauto|].
  destruct (accrual_date_valid_or_null (start_date cs) y m) as [Hnull|(Hv & Hy & Hm)].
  { fold accrual in Hnull. rewrite Hnull in Ele.
    destruct (start_date cs); discriminate. }
  fold accrual in Hv, Hy, Hm.
  apply (interest_loop_total _ _ _ _
           (Z.to_nat (372 * (astro y - astro (year (start_date cs)) + 1)))); trivial.
  - unfold simulation_end_date_of. apply date_min_valid_or_null; auto.
  - cbn [iter_date].
    pose proof (date_min_rank accrual today Hv Ht) as Hmin.
    unfold simulation_end_date_of.
    assert (Hacc : day_rank accrual <= astro y * 372 + 371).
    { destruct accrual as [|ya ma da]; [discriminate|]. simpl in Hv, Hy, Hm.
      apply validYMD_iff in Hv. pose proof (monthDays_ge_28 ya ma ltac:(lia)).
      unfold day_rank. cbn [year month day]. subst. lia. }
    assert (Hst : astro (year (start_date cs)) * 372 <= day_rank (start_date cs)).
    { destruct (start_date cs) as [|ys ms ds]; [discriminate|]. simpl in Hs.
      apply validYMD_iff in Hs. unfold day_rank. cbn [year month day]. lia. }
    lia.
Qed.

(** ** The accumulated interest *)

Lemma month_start_not_after up_to_date o :
  isValid up_to_date = true -> o <= date_ordinal up_to_date ->
  date_ltb up_to_date (month_start o) = false.
Proof.
  intros Hv Ho. pose proof (month_start_valid o) as Hm.
  pose proof (month_start_ordinal o) as Hord.
  destruct (Z.eq_dec o (date_ordinal up_to_date)) as [Heq|Hne].
  - destruct (same_ordinal (month_start o) up_to_date Hm Hv ltac:(lia)) as [Hy Hmo].
    destruct up_to_date as [|y m d]; [discriminate|].
    unfold month_start in *. simpl in Hy, Hmo, Hv. apply validYMD_iff in Hv.
    simpl. rewrite Hy, Hmo. rewrite !Z.ltb_irrefl, !Z.eqb_refl. simpl.
    apply Z.ltb_ge. lia.
  - apply date_ltb_asym. apply ordinal_lt_date_ltb; trivial. lia.
Qed.

Lemma year_month_of_ordinal q :
  isValid q = true ->
  year q = year_of (date_ordinal q) /\ month q = month_of (date_ordinal q).
Proof.
  intros Hv. unfold year_of, month_of.
  pose proof (month_start_valid (date_ordinal q)) as Hm.
  pose proof (month_start_ordinal (date_ordinal q)) as Ho.
  destruct (same_ordinal (month_start (date_ordinal q)) q Hm Hv Ho). auto.
Qed.

Lemma total_interest_loop_run monthly_interest up_to_date :
  isValid up_to_date = true ->
  forall n current_check_date total_interest fuel,
    isValid current_check_date = true ->
    date_ordinal current_check_date + Z.of_nat n = date_ordinal up_to_date + 1 ->
    (n + 1 <= fuel)%nat ->
    total_interest_loop fuel monthly_interest up_to_date current_check_date total_interest
    = sum_months monthly_interest (date_ordinal current_check_date) n total_interest.
Proof.
  intros Hu. destruct (addMonths_1_spec up_to_date Hu) as (Hu1 & Hu1o & _).
  induction n as [|n IH]; intros ccd total fuel Hv Hord Hfuel;
    (destruct fuel as [|fuel]; [lia|]); cbn [total_interest_loop sum_months].
  - destruct (date_leb ccd (addMonths 1 up_to_date)); [|reflexivity].
    rewrite first_of_month by assumption. unfold date_gtb.
    assert (H1 : date_ltb up_to_date (month_start (date_ordinal ccd)) = true).
    { apply ordinal_lt_date_ltb; [assumption|apply month_start_valid|].
      rewrite month_start_ordinal. lia. }
    assert (H2 : date_ltb up_to_date ccd = true)
      by (apply ordinal_lt_date_ltb; trivial; lia).
    now rewrite H1, H2.
  - replace (date_leb ccd (addMonths 1 up_to_date)) with true.
    2:{ symmetry. unfold date_leb. apply negb_true_iff, date_ltb_asym.
        apply ordinal_lt_date_ltb; trivial. lia. }
    rewrite first_of_month by assumption. unfold date_gtb at 1.
    rewrite month_start_not_after by (trivial; lia). simpl andb. cbv iota.
    destruct (year_month_of_ordinal ccd Hv) as [<- <-].
    destruct (monthly_interest (year ccd) (month ccd)) as [i| |]; cbn [bind]; trivial.
    destruct (addMonths_1_spec ccd Hv) as (Hv' & Ho' & _).
    rewrite IH by (trivial; lia). now rewrite Ho'.
Qed.

Lemma sum_months_values monthly_interest : forall n o total_interest,
  (forall y m, In (y, m) (months_from o n) -> exists v, monthly_interest y m = Ok v) ->
  exists interests,
    Forall2 (fun ym i => monthly_interest (fst ym) (snd ym) = Ok i)
      (months_from o n) interests
    /\ sum_months monthly_interest o n total_interest
       = Ok (fold_left Qplus interests total_interest).
Proof.
  induction n as [|n IH]; intros o total Hall.
  - exists []. split; [constructor|reflexivity].
  - cbn [months_from sum_months] in *.
    destruct (Hall (year_of o) (month_of o) (or_introl eq_refl)) as [v Hv].
    destruct (IH (o + 1) (total + v)%Q) as (vs & Hvs & Hsum).
    { intros y m Hin. apply Hall. now right. }
    exists (v :: vs). split; [now constructor|].
    rewrite Hv. cbn [bind]. exact Hsum.
Qed.

Lemma months_from_range o n y m :
  In (y, m) (months_from o n) ->
  exists k, o <= k < o + Z.of_nat n /\ y = year_of k /\ m = month_of k.
Proof.
  revert o. induction n as [|n IH]; intros o; cbn [months_from]; [intros []|].
  intros [[= <- <-]|Hin].
  - exists o. repeat split; lia.
  - destruct (IH _ Hin) as (k & Hk & Hy & Hm). exists k. repeat split; trivial; lia.
Qed.

Lemma astro_year_of_le o q :
  isValid q = true -> o <= date_ordinal q -> astro (year_of o) <= astro (year q).
Proof.
  intros Hv Ho. unfold year_of, month_start. cbn [year]. rewrite astro_civil.
  destruct q as [|y m d]; [discriminate|]. simpl in Hv. apply validYMD_iff in Hv.
  unfold date_ordinal, month_ordinal in Ho. cbn [year month] in *.
  Z.to_euclidean_division_equations. lia.
Qed.

(** C6: [get_total_accumulated_interest] returns 0 when
    [up_to_date <= start_date]; otherwise it returns the sum of
    [calculate_monthly_interest] over the months after the month of
    [start_date] up to and including the month of [up_to_date], and over
    no other month. *)
Theorem total_interest_is_monthly_sum
    (fuel : nat) (today : QDate) (db : database) (up_to_date : option QDate) :
  let start_date := start_date (get_contract_settings today db) in
  let up_to := match up_to_date with Some d => d | None => today end in
  isValid start_date = true ->
  isValid up_to = true ->
  isValid today = true ->
  (enough_fuel start_date up_to <= fuel)%nat ->
  (date_leb up_to start_date = true ->
   get_total_accumulated_interest fuel today db up_to_date = Ok 0%Q)
  /\ (date_leb up_to start_date = false ->
      exists interests,
        Forall2 (fun ym i => calculate_monthly_interest fuel today db (fst ym) (snd ym) = Ok i)
          (months_after start_date up_to) interests
        /\ get_total_accumulated_interest fuel today db up_to_date
           = Ok (fold_left Qplus interests 0%Q)).
Proof.
  intros start up_to Hs Hu Ht Hfuel.
  unfold get_total_accumulated_interest. fold up_to. fold start.
  split; [now intros ->|]. intros Hgt. rewrite Hgt.
  assert (Hlt : date_ltb start up_to = true)
    by (unfold date_leb in Hgt; now apply negb_false_iff in Hgt).
  pose proof (date_ltb_ordinal_le _ _ Hs Hu Hlt) as Hord.
  assert (Hyears : astro (year start) <= astro (year up_to)).
  { destruct start as [|ys ms ds]; [discriminate|].
    destruct up_to as [|yu mu du]; [discriminate|].
    simpl in Hs, Hu, Hlt. apply validYMD_iff in Hs, Hu.
    pose proof (astro_lt yu ys ltac:(lia) ltac:(lia)).
    cbn [year]. bool_prop. lia. }
  assert (Hspan : date_ordinal up_to - date_ordinal start
                  <= 12 * (astro (year up_to) - astro (year start)) + 11).
  { destruct start as [|ys ms ds]; [discriminate|].
    destruct up_to as [|yu mu du]; [discriminate|].
    simpl in Hs, Hu. apply validYMD_iff in Hs, Hu.
    unfold date_ordinal, month_ordinal. cbn [year month]. lia. }
  destruct (addMonths_1_spec start Hs) as (Hv1 & Ho1 & _).
  unfold enough_fuel in Hfuel.
  rewrite (total_interest_loop_run _ _ Hu
             (Z.to_nat (date_ordinal up_to - date_ordinal start)));
    trivial; [|lia|lia].
  rewrite Ho1. unfold months_after. apply sum_months_values.
  intros y m Hin. apply months_from_range in Hin.
  destruct Hin as (k & Hk & -> & ->).
  apply calculate_monthly_interest_total; trivial.
  pose proof (astro_year_of_le k up_to Hu ltac:(lia)). fold start. nia.
Qed.

(** ** Instances *)

Ltac by_computation :=
  first [ reflexivity
        | lia
        | vm_compute;
          first [ reflexivity | lia | discriminate | (intro; discriminate) ] ].


Lemma settings_round_trip_witness :
  get_contract_settings NullDate (save_contract_settings sample_settings init_database)
  = sample_settings.
Proof.
  apply settings_round_trip; (split; [reflexivity | simpl; lia]).
Defined.

(** The year 10000 is valid, but its text ['10000-01-01'] is not of the
    form ['yyyy-MM-dd']: the start date is read back as the null date. *)
Lemma settings_round_trip_counterexample :
  ~ settings_round_trip_as_stated year_10000 init_database NullDate.
Proof.
  intros H. destruct (H eq_refl eq_refl) as (_ & Hstart & _).
  vm_compute in Hstart. discriminate Hstart.
Qed.

Lemma effective_rate_is_latest_change_witness :
  get_effective_rate_on_date (Date 2024 5 31) sample_settings = 3%Q.
Proof.
  apply (proj1 (effective_rate_is_latest_change (Date 2024 5 31) sample_settings)).
  intros rc [<-|[<-|[]]]; reflexivity.
Defined.

Lemma same_date_last_listed_wins_witness :
  get_effective_rate_on_date (Date 2024 6 1) sample_settings = 7%Q.
Proof.
  refine (proj1 (same_date_last_listed_wins (Date 2024 6 1) sample_settings
                   [ {| date := "01.06.2024"; rate := 5 |} ] []
                   {| date := "01.06.2024"; rate := 7 |} _ _ _ _)).
  - reflexivity.
  - reflexivity.
  - intros x [<-|[<-|[]]] _; reflexivity.
  - intros x [].
Defined.

Lemma ledger_never_stores_zero_witness :
  ~ has_entry
      (save_daily_amount (Date 2024 2 5) 0
         (apply_writes [(Date 2024 2 5, 100%Q)] init_database))
      (Date 2024 2 5).
Proof.
  apply (ledger_never_stores_zero [(Date 2024 2 5, 100%Q)] (Date 2024 2 5) 0).
  reflexivity.
Defined.



(** 150 paid in January against a monthly share of 100: the deposits
    through month 1 exceed [base * 1], yet February keeps the plan 100. *)
Lemma next_month_reduced_counterexample :
  ~ next_month_reduced_as_stated 20 NullDate overpaid_db.
Proof.
  intros H.
  pose (plans := match calculate_monthly_plans 20 NullDate overpaid_db with
                 | Ok p => p
                 | _ => ∅
                 end).
  assert (E : calculate_monthly_plans 20 NullDate overpaid_db = Ok plans)
    by (vm_compute; reflexivity).
  specialize (H plans 1%nat E).
  assert (Hlt := H ltac:(vm_compute; lia) ltac:(vm_compute; reflexivity)).
  revert Hlt. vm_compute. discriminate.
Qed.

Lemma overpayment_reduces_current_month_witness :
  exists plans v,
    calculate_monthly_plans 20 NullDate overpaid_db = Ok plans
    /\ plans !! month_key_of (date_ordinal (Date 2024 1 1) + Z.of_nat 0) = Some v
    /\ (v < 1200 / 12)%Q.
Proof.
  destruct (overpayment_reduces_current_month 20 NullDate overpaid_db 0)
    as (plans & v & Hcalc & Hv & Hover & _);
    [by_computation .. |].
  exists plans, v. split; [exact Hcalc|]. split; [exact Hv|].
  apply Hover. vm_compute. reflexivity.
Defined.


Lemma total_interest_is_monthly_sum_witness :
  exists interests,
    Forall2 (fun ym i =>
               calculate_monthly_interest 400 (Date 2024 3 10) three_percent_db
                 (fst ym) (snd ym) = Ok i)
      [(2024, 2); (2024, 3)] interests
    /\ get_total_accumulated_interest 400 (Date 2024 3 10) three_percent_db None
       = Ok (fold_left Qplus interests 0%Q).
Proof.
  destruct (total_interest_is_monthly_sum 400 (Date 2024 3 10) three_percent_db None)
    as [_ H]; [by_computation .. |].
  exact (H eq_refl).
Defined.

(** * Further properties *)

(** ** Reading back what was written *)

Lemma find_key_app key (l l' : list (string * Q)) :
  List.find (fun r => String.eqb (fst r) key) (l ++ l')
  = match List.find (fun r => String.eqb (fst r) key) l with
    | Some r => Some r
    | None => List.find (fun r => String.eqb (fst r) key) l'
    end.
Proof.
  induction l as [|r l IH]; simpl; [reflexivity|].
  destruct (String.eqb (fst r) key); [reflexivity|exact IH].
Qed.

Lemma find_key_filtered key (rows : list (string * Q)) :
  List.find (fun r => String.eqb (fst r) key)
    (List.filter (fun r => negb (String.eqb (fst r) key)) rows) = None.
Proof.
  induction rows as [|r rows IH]; simpl; [reflexivity|].
  destruct (String.eqb (fst r) key) eqn:E; simpl; [exact IH|].
  now rewrite E.
Qed.

Lemma find_key_filtered_other key key' (rows : list (string * Q)) :
  key' <> key ->
  List.find (fun r => String.eqb (fst r) key')
    (List.filter (fun r => negb (String.eqb (fst r) key)) rows)
  = List.find (fun r => String.eqb (fst r) key') rows.
Proof.
  intros Hne. induction rows as [|r rows IH]; simpl; [reflexivity|].
  destruct (String.eqb_spec (fst r) key) as [Hk|Hk]; simpl.
  - destruct (String.eqb_spec (fst r) key') as [Hk'|_]; [congruence|exact IH].
  - destruct (String.eqb (fst r) key'); [reflexivity|exact IH].
Qed.

Lemma toString_ymd_inj a b :
  isValid a = true -> isValid b = true ->
  toString a yyyy_MM_dd = toString b yyyy_MM_dd -> a = b.
Proof.
  destruct a as [|y m d]; [discriminate|]. destruct b as [|y' m' d']; [discriminate|].
  intros Ha Hb. unfold toString. rewrite Ha, Hb. simpl negb. cbv iota.
  simpl in Ha, Hb. apply validYMD_iff in Ha, Hb.
  pose proof (monthDays_ge_28 y m ltac:(lia)).
  pose proof (monthDays_ge_28 y' m' ltac:(lia)).
  intros Heq. apply append_inj in Heq.
  - destruct Heq as [Hy Heq]. apply yyyy_inj in Hy.
    rewrite !append_cons, !append_nil in Heq. injection Heq as Heq.
    apply append_inj in Heq.
    + destruct Heq as [Hm Hd]. rewrite ?append_cons, ?append_nil in Hd.
      injection Hd as Hd. apply zero_padded_inj in Hm, Hd; try lia. congruence.
    + rewrite ?append_cons, ?append_nil. cbn [String.length].
      rewrite !(zero_padded_small 2) by (simpl; lia).
      now rewrite !digits_length.
  - rewrite !string_length_append, !(zero_padded_small 2) by (simpl; lia).
    now rewrite !digits_length.
Qed.

(** X1: After [save_daily_amount(d, a)], [get_daily_amount(d)] is [a]: the
    stored amount when [a] is not zero, 0.0 (no row) when it is. *)
Theorem daily_amount_read_back (d : QDate) (amount : Q) (db : database) :
  (get_daily_amount d (save_daily_amount d amount db) == amount)%Q
  /\ (~ (amount == 0)%Q ->
      get_daily_amount d (save_daily_amount d amount db) = amount)
  /\ ((amount == 0)%Q ->
      get_daily_amount d (save_daily_amount d amount db) = 0%Q).
Proof.
  unfold get_daily_amount, save_daily_amount. cbn [daily_data].
  destruct (Qeq_bool amount 0) eqn:E.
  - apply Qeq_bool_iff in E. unfold delete_daily. rewrite find_key_filtered.
    split; [now symmetry|]. split; [tauto|reflexivity].
  - unfold delete_daily. rewrite find_key_app, find_key_filtered. simpl.
    rewrite String.eqb_refl. simpl.
    split; [reflexivity|]. split; [reflexivity|].
    intros Hz. apply Qeq_bool_iff in Hz. congruence.
Qed.

(** X2: [save_daily_amount] on one day leaves the amount of every other day
    as it was. *)
Theorem daily_amount_other_day (d d' : QDate) (amount : Q) (db : database) :
  isValid d = true -> isValid d' = true -> d' <> d ->
  get_daily_amount d' (save_daily_amount d amount db) = get_daily_amount d' db.
Proof.
  intros Hd Hd' Hne.
  assert (Hk : toString d' yyyy_MM_dd <> toString d yyyy_MM_dd)
    by (intros H; apply Hne; now apply toString_ymd_inj).
  unfold get_daily_amount, save_daily_amount. cbn [daily_data].
  destruct (Qeq_bool amount 0); unfold delete_daily.
  - now rewrite find_key_filtered_other.
  - rewrite find_key_app, find_key_filtered_other by assumption.
    destruct (List.find _ (daily_data db)); [reflexivity|].
    simpl. destruct (String.eqb_spec (toString d yyyy_MM_dd) (toString d' yyyy_MM_dd));
      [congruence|reflexivity].
Qed.

Lemma rows_to_dict_lookup (rows : list (string * Q)) : forall (m : gmap string Q) key,
  List.NoDup (map fst rows) ->
  fold_left (fun m row => <[fst row := snd row]> m) rows m !! key
  = match List.find (fun r => String.eqb (fst r) key) rows with
    | Some r => Some (snd r)
    | None => m !! key
    end.
Proof.
  induction rows as [|r rows IH]; intros m key Hnd; [reflexivity|].
  inversion Hnd as [|? ? Hnotin Hnd']; subst. cbn [fold_left List.find].
  rewrite IH by assumption.
  destruct (String.eqb_spec (fst r) key) as [Hk|Hk].
  - destruct (List.find _ rows) as [r'|] eqn:E.
    + apply List.find_some in E. destruct E as [Hin Heq].
      apply String.eqb_eq in Heq. exfalso. apply Hnotin.
      apply List.in_map_iff. exists r'. split; [congruence|assumption].
    + subst key. apply lookup_insert_eq.
  - destruct (List.find _ rows); [reflexivity|]. now apply lookup_insert_ne.
Qed.

(** X3: On every ledger reached by writes, the dict of [get_all_daily_data]
    and the query of [get_daily_amount] agree: the dict has a key for a
    day exactly when the table has a row for it, and then holds the
    amount that [get_daily_amount] returns. *)
Theorem all_daily_data_agrees (writes : list (QDate * Q)) (d : QDate) :
  let db := apply_writes writes init_database in
  let key := toString d yyyy_MM_dd in
  (is_Some (get_all_daily_data db !! key) <-> has_entry db d)
  /\ (forall a, get_all_daily_data db !! key = Some a -> get_daily_amount d db = a)
  /\ (get_all_daily_data db !! key = None -> get_daily_amount d db = 0%Q).
Proof.
  intros db key.
  assert (Hok : ledger_ok (daily_data db)).
  { apply apply_writes_ok. split; constructor. }
  destruct Hok as [_ Hnd].
  unfold get_all_daily_data, get_daily_amount, has_entry. fold key.
  rewrite rows_to_dict_lookup by assumption. rewrite lookup_empty.
  destruct (List.find _ (daily_data db)) as [r|] eqn:E.
  - apply List.find_some in E. destruct E as [Hin Heq]. apply String.eqb_eq in Heq.
    split; [|split].
    + split; [|eauto]. intros _. apply List.in_map_iff. now exists r.
    + now intros a [= <-].
    + discriminate.
  - split; [|split; [discriminate|reflexivity]]. split.
    + intros [a Ha]. discriminate.
    + intros Hin. exfalso. apply List.in_map_iff in Hin.
      destruct Hin as (r & Hk & Hr). apply (List.find_none _ _ E) in Hr.
      simpl in Hr. rewrite Hk, String.eqb_refl in Hr. discriminate.
Qed.

(** ** Manual monthly plans *)

Lemma filter_keys_NoDup (p : string * Q -> bool) (rows : list (string * Q)) :
  List.NoDup (map fst rows) -> List.NoDup (map fst (List.filter p rows)).
Proof.
  induction rows as [|r rows IH]; simpl; [constructor|].
  intros Hnd. inversion Hnd as [|? ? Hnotin Hnd']; subst.
  destruct (p r); simpl; [|now apply IH].
  constructor; [|now apply IH].
  intros Hin. apply Hnotin. apply List.in_map_iff in Hin.
  destruct Hin as (r' & Hk & Hr). apply List.filter_In in Hr.
  apply List.in_map_iff. exists r'. tauto.
Qed.

(** X4: A saved manual plan is read back as saved, a zero included (no row
    is deleted here); the other months keep their plan; a month without
    a row reads 0.0; and no month ever has two rows. *)
Theorem monthly_plan_read_back
    (month_key other_key : string) (plan_amount : Q) (rows : list (string * Q)) :
  get_monthly_plan month_key (save_monthly_plan month_key plan_amount rows) = plan_amount
  /\ (other_key <> month_key ->
      get_monthly_plan other_key (save_monthly_plan month_key plan_amount rows)
      = get_monthly_plan other_key rows)
  /\ (~ In month_key (map fst rows) -> get_monthly_plan month_key rows = 0%Q)
  /\ (List.NoDup (map fst rows) ->
      List.NoDup (map fst (save_monthly_plan month_key plan_amount rows)))
  /\ (List.NoDup (map fst rows) ->
      get_all_monthly_plans (save_monthly_plan month_key plan_amount rows) !! month_key
      = Some plan_amount).
Proof.
  unfold get_monthly_plan, save_monthly_plan.
  split; [|split; [|split; [|split]]].
  - rewrite find_key_app, find_key_filtered. simpl. now rewrite String.eqb_refl.
  - intros Hne. rewrite find_key_app, find_key_filtered_other by assumption.
    destruct (List.find _ rows); [reflexivity|].
    simpl. destruct (String.eqb_spec month_key other_key); [congruence|reflexivity].
  - intros Hno. destruct (List.find _ rows) as [r|] eqn:E; [|reflexivity].
    apply List.find_some in E. destruct E as [Hin Heq]. apply String.eqb_eq in Heq.
    exfalso. apply Hno. apply List.in_map_iff. now exists r.
  - intros Hnd. rewrite List.map_app. simpl.
    apply List.NoDup_app.
    + now apply filter_keys_NoDup.
    + constructor; [intros []|constructor].
    + intros k Hin [<-|[]]. revert Hin. apply (delete_daily_no_key month_key rows).
  - intros Hnd. unfold get_all_monthly_plans. rewrite rows_to_dict_lookup.
    + rewrite find_key_app, find_key_filtered. simpl. now rewrite String.eqb_refl.
    + rewrite List.map_app. simpl. apply List.NoDup_app.
      * now apply filter_keys_NoDup.
      * constructor; [intros []|constructor].
      * intros k Hin [<-|[]]. revert Hin. apply (delete_daily_no_key month_key rows).
Qed.

(** ** The months of the plan *)

Lemma plan_keys_contract_months base data cs k key v :
  isValid (start_date cs) = true ->
  monthly_plans (plan_after base data (date_ordinal (start_date cs)) k) !! key = Some v ->
  (k <= included_months cs)%nat ->
  exists y m, contract_month cs y m /\ key = toString (Date y m 1) yyyy_MM.
Proof.
  intros Hs Hv Hk. apply plan_after_lookup_some in Hv.
  destruct Hv as (j & Hj & -> & _).
  pose proof (month_start_valid (date_ordinal (start_date cs) + Z.of_nat j)) as Hval.
  pose proof (month_start_ordinal (date_ordinal (start_date cs) + Z.of_nat j)) as Ho.
  unfold month_key_of, month_start in *. simpl in Hval. apply validYMD_iff in Hval.
  eexists _, _. split; [|reflexivity].
  unfold contract_month, included_months in *.
  unfold date_ordinal in Ho at 1. simpl in Ho. repeat split; lia.
Qed.

Lemma month_index_of_included start_date j :
  isValid start_date = true -> 1 <= year start_date ->
  _get_month_index (month_start (date_ordinal start_date + Z.of_nat j)) start_date
  = Z.of_nat j + 1.
Proof.
  intros Hs Hy. rewrite (ordinal_common_era start_date Hs Hy).
  destruct start_date as [|y m d]; [discriminate|]. simpl in Hs, Hy.
  apply validYMD_iff in Hs. cbn [year month].
  unfold _get_month_index, month_start, civil. cbn [year month].
  set (o := y * 12 + m - 1 + Z.of_nat j).
  replace (o / 12 <=? 0) with false
    by (symmetry; apply Z.leb_gt; Z.to_euclidean_division_equations; lia).
  Z.to_euclidean_division_equations. lia.
Qed.

(** X5: For valid dates from year 1 on and a non-zero amount, the plan has
    as many entries as [_get_months_between_dates_excluding_end] counts
    (none when the end is not in a later month than the start), the
    month count used for the division is that number floored at 1, and
    the running index of each planned month is what [_get_month_index]
    gives for it. *)
Theorem plan_entries_and_month_helpers
    (fuel : nat) (today : QDate) (db : database) :
  let cs := get_contract_settings today db in
  let n := _get_months_between_dates_including_start_excluding_end
             (start_date cs) (end_date cs) in
  let base := (contract_amount cs / inject_Z n)%Q in
  let first := date_ordinal (start_date cs) in
  isValid (start_date cs) = true ->
  isValid (end_date cs) = true ->
  1 <= year (start_date cs) ->
  1 <= year (end_date cs) ->
  ~ (contract_amount cs == 0)%Q ->
  (included_months cs + 2 <= fuel)%nat ->
  exists plans,
    calculate_monthly_plans fuel today db = Ok plans
    /\ Z.of_nat (size plans)
       = _get_months_between_dates_excluding_end (start_date cs) (end_date cs)
    /\ n = Z.max 1 (_get_months_between_dates_excluding_end (start_date cs) (end_date cs))
    /\ (date_ordinal (end_date cs) <= first -> plans = ∅)
    /\ (forall j, (j < size plans)%nat ->
          plans !! month_key_of (first + Z.of_nat j)
          = Some (adjusted_plan base
                    (cumulative_through (get_all_daily_data db) first (S j))
                    (_get_month_index (month_start (first + Z.of_nat j)) (start_date cs)))).
Proof.
  intros cs n base first Hs He Hys Hye HA Hfuel.
  eexists. split; [now apply calculate_monthly_plans_run|].
  fold cs n base first.
  assert (Htot : (year (end_date cs) - year (start_date cs)) * 12
                 + month (end_date cs) - month (start_date cs)
                 = date_ordinal (end_date cs) - first).
  { unfold first. rewrite !ordinal_common_era by assumption. lia. }
  rewrite plan_after_size.
  unfold _get_months_between_dates_excluding_end. rewrite Htot.
  split; [unfold included_months; fold first; lia|].
  split.
  { unfold n, _get_months_between_dates_including_start_excluding_end.
    rewrite Htot. lia. }
  split.
  { intros Hle. unfold included_months. fold first.
    replace (Z.to_nat _) with 0%nat by lia. reflexivity. }
  intros j Hj.
  rewrite (month_index_of_included (start_date cs) j Hs Hys : 
             _get_month_index (month_start (first + Z.of_nat j)) (start_date cs)
             = Z.of_nat j + 1).
  rewrite plan_after_lookup by assumption. do 2 f_equal. lia.
Qed.

(** ** The plan of a given month *)

Lemma ndigits_exact n k :
  (1 <= k)%nat -> 10 ^ Z.of_nat (k - 1) <= n < 10 ^ Z.of_nat k -> ndigits n = k.
Proof.
  intros Hk Hn.
  assert (H0 : 0 <= n).
  { pose proof (Z.pow_pos_nonneg 10 (Z.of_nat (k - 1)) ltac:(lia) ltac:(lia)). lia. }
  apply Nat.le_antisymm.
  - unfold ndigits. apply ndigits_aux_le; [lia|assumption].
  - pose proof (ndigits_bound n H0) as Hb.
    destruct (Nat.le_gt_cases k (ndigits n)) as [?|Hlt]; [assumption|].
    exfalso.
    assert (10 ^ Z.of_nat (ndigits n) <= 10 ^ Z.of_nat (k - 1))
      by (apply Z.pow_le_mono_r; lia).
    lia.
Qed.

Lemma py_month_key_toString y m :
  1000 <= y <= 9999 -> 1 <= m <= 12 ->
  py_month_key y m = toString (Date y m 1) yyyy_MM.
Proof.
  intros Hy Hm. unfold toString. simpl isValid.
  replace (validYMD y m 1) with true.
  2:{ symmetry. apply validYMD_iff. pose proof (monthDays_ge_28 y m Hm). lia. }
  simpl negb. cbv iota. unfold py_month_key, py_str, py_02d, yyyy.
  replace (y <? 0) with false by (symmetry; apply Z.ltb_ge; lia).
  replace (m <? 0) with false by (symmetry; apply Z.ltb_ge; lia).
  rewrite Z.abs_eq by lia. unfold zero_padded.
  rewrite (ndigits_exact y 4) by (simpl; lia). reflexivity.
Qed.

(** X6: [get_adjusted_monthly_plan] for a month of a four-digit year returns
    the plan that [calculate_monthly_plans] holds for that month, and
    0.0 for a month outside the contract; the month of [end_date] is
    always outside, so it reads 0.0. *)
Theorem adjusted_plan_of_month
    (fuel : nat) (today : QDate) (db : database) (y m : Z) :
  let cs := get_contract_settings today db in
  isValid (start_date cs) = true ->
  isValid (end_date cs) = true ->
  ~ (contract_amount cs == 0)%Q ->
  (included_months cs + 2 <= fuel)%nat ->
  1000 <= y <= 9999 -> 1 <= m <= 12 ->
  exists plans,
    calculate_monthly_plans fuel today db = Ok plans
    /\ get_adjusted_monthly_plan fuel today db y m
       = Ok (plans_get plans (toString (Date y m 1) yyyy_MM))
    /\ (~ contract_month cs y m -> get_adjusted_monthly_plan fuel today db y m = Ok 0%Q)
    /\ (y = year (end_date cs) -> m = month (end_date cs) ->
        get_adjusted_monthly_plan fuel today db y m = Ok 0%Q).
Proof.
  intros cs Hs He HA Hfuel Hy Hm.
  pose proof (calculate_monthly_plans_run fuel today db Hs He HA Hfuel) as Hrun.
  fold cs in Hrun.
  assert (Hget : forall plans, calculate_monthly_plans fuel today db = Ok plans ->
            get_adjusted_monthly_plan fuel today db y m
            = Ok (plans_get plans (toString (Date y m 1) yyyy_MM))).
  { intros plans Hp. unfold get_adjusted_monthly_plan. rewrite Hp. cbn [bind].
    rewrite py_month_key_toString by assumption. now destruct (_ && _). }
  assert (Hout : ~ contract_month cs y m ->
            get_adjusted_monthly_plan fuel today db y m = Ok 0%Q).
  { intros Hno. rewrite (Hget _ Hrun). unfold plans_get.
    destruct (_ !! _) as [v|] eqn:E; [|reflexivity].
    exfalso. apply plan_keys_contract_months in E; [|assumption|lia].
    destruct E as (y' & m' & Hc & Hk).
    apply month_key_inj in Hk.
    - destruct Hk as [-> ->]. contradiction.
    - apply validYMD_iff. pose proof (monthDays_ge_28 y m Hm). lia.
    - destruct Hc as (Hy' & Hm' & _). apply validYMD_iff.
      pose proof (monthDays_ge_28 y' m' Hm'). lia. }
  eexists. split; [exact Hrun|]. split; [now apply Hget|]. split; [exact Hout|].
  intros -> ->. apply Hout. intros (_ & _ & Hr).
  unfold date_ordinal in Hr. lia.
Qed.

(** ** Interest without deposits, interest with deposits *)

Lemma interest_loop_no_balance cs target_period_start simulation_end_date :
  forall fuel s v,
    current_balance s = 0%Q ->
    interest_loop fuel cs ∅ target_period_start simulation_end_date s = Ok v ->
    v = interest_for_target_period s.
Proof.
  induction fuel as [|fuel IH]; intros s v Hb; cbn [interest_loop]; [discriminate|].
  destruct (date_ltb (iter_date s) simulation_end_date); [|now intros [= <-]].
  unfold simulate_day, capitalize. rewrite Hb.
  replace (Qgtb 0 0) with false by reflexivity. cbn [bind].
  intros H. apply IH in H.
  - exact H.
  - cbn [deposit_and_advance current_balance]. now rewrite lookup_empty.
Qed.

Lemma sum_months_all_zero monthly_interest : forall n o total_interest,
  (forall y m, In (y, m) (months_from o n) -> monthly_interest y m = Ok 0%Q) ->
  sum_months monthly_interest o n total_interest = Ok total_interest.
Proof.
  induction n as [|n IH]; intros o total Hall; cbn [months_from sum_months] in *;
    [reflexivity|].
  rewrite (Hall _ _ (or_introl eq_refl)). cbn [bind].
  rewrite IH by (intros y m Hin; apply Hall; now right).
  f_equal. destruct total as [num den]. unfold Qplus. cbn [Qnum Qden].
  f_equal; [lia|apply Pos.mul_1_r].
Qed.

Lemma total_interest_as_sum_months fuel today db up_to_date :
  let start_date := start_date (get_contract_settings today db) in
  isValid start_date = true ->
  isValid up_to_date = true ->
  (enough_fuel start_date up_to_date <= fuel)%nat ->
  date_leb up_to_date start_date = false ->
  get_total_accumulated_interest fuel today db (Some up_to_date)
  = sum_months (calculate_monthly_interest fuel today db)
      (date_ordinal start_date + 1)
      (Z.to_nat (date_ordinal up_to_date - date_ordinal start_date)) 0%Q.
Proof.
  intros start Hs Hu Hfuel Hgt.
  unfold get_total_accumulated_interest. fold start. rewrite Hgt.
  assert (Hlt : date_ltb start up_to_date = true)
    by (unfold date_leb in Hgt; now apply negb_false_iff in Hgt).
  pose proof (date_ltb_ordinal_le _ _ Hs Hu Hlt) as Hord.
  assert (Hspan : date_ordinal up_to_date - date_ordinal start
                  <= 12 * (astro (year up_to_date) - astro (year start)) + 11).
  { destruct start as [|ys ms ds]; [discriminate|].
    destruct up_to_date as [|yu mu du]; [discriminate|].
    simpl in Hs, Hu. apply validYMD_iff in Hs, Hu.
    unfold date_ordinal, month_ordinal. cbn [year month]. lia. }
  assert (Hyears : astro (year start) <= astro (year up_to_date)).
  { destruct start as [|ys ms ds]; [discriminate|].
    destruct up_to_date as [|yu mu du]; [discriminate|].
    simpl in Hs, Hu, Hlt. apply validYMD_iff in Hs, Hu.
    pose proof (astro_lt yu ys ltac:(lia) ltac:(lia)).
    cbn [year]. bool_prop. lia. }
  destruct (addMonths_1_spec start Hs) as (Hv1 & Ho1 & _).
  unfold enough_fuel in Hfuel.
  rewrite (total_interest_loop_run _ _ Hu
             (Z.to_nat (date_ordinal up_to_date - date_ordinal start)));
    trivial; [|lia|lia].
  now rewrite Ho1.
Qed.

(** X7: With an empty ledger every month has the interest 0, and the
    accumulated interest is 0 at every date. *)
Theorem no_deposit_no_interest
    (fuel : nat) (today : QDate) (db : database) (y m : Z) (up_to_date : QDate) :
  let start_date := start_date (get_contract_settings today db) in
  daily_data db = [] ->
  isValid start_date = true ->
  isValid today = true ->
  ((Z.to_nat (372 * (astro y - astro (year start_date) + 1)) + 1 <= fuel)%nat ->
   calculate_monthly_interest fuel today db y m = Ok 0%Q)
  /\ (isValid up_to_date = true ->
      (enough_fuel start_date up_to_date <= fuel)%nat ->
      get_total_accumulated_interest fuel today db (Some up_to_date) = Ok 0%Q).
Proof.
  intros start Hdata Hs Ht.
  assert (Hmonth : forall fuel y m,
    (Z.to_nat (372 * (astro y - astro (year start) + 1)) + 1 <= fuel)%nat ->
    calculate_monthly_interest fuel today db y m = Ok 0%Q).
  { clear fuel y m. intros fuel y m Hfuel.
    destruct (calculate_monthly_interest_total fuel today db y m Hs Ht Hfuel) as [v Hv].
    rewrite Hv. f_equal. revert Hv. unfold calculate_monthly_interest.
    destruct (date_leb _ _); [now intros [= <-]|].
    destruct (date_geb _ _); [now intros [= <-]|].
    rewrite (get_all_daily_data_empty db Hdata).
    intros Hv. now apply interest_loop_no_balance in Hv. }
  split; [apply Hmonth|]. intros Hu Hfuel.
  destruct (date_leb up_to_date start) eqn:E.
  - unfold get_total_accumulated_interest. fold start. now rewrite E.
  - rewrite total_interest_as_sum_months by assumption. fold start.
    apply sum_months_all_zero. intros y' m' Hin.
    apply months_from_range in Hin. destruct Hin as (k & Hk & -> & ->).
    apply Hmonth.
    assert (Hord : date_ordinal start <= date_ordinal up_to_date).
    { apply date_ltb_ordinal_le; trivial.
      unfold date_leb in E. now apply negb_false_iff in E. }
    pose proof (astro_year_of_le k up_to_date Hu ltac:(lia)).
    unfold enough_fuel in Hfuel. fold start in Hfuel. nia.
Qed.

Lemma effective_rate_nonneg d cs :
  (0 <= initial_rate cs)%Q ->
  (forall rc, In rc (rate_history cs) -> (0 <= rate rc)%Q) ->
  (0 <= get_effective_rate_on_date d cs)%Q.
Proof.
  intros Hi Hh. rewrite effective_rate_latest_change.
  destruct (latest_change d (rate_history cs)) as [rc|] eqn:E; [|assumption].
  apply latest_change_origin in E. now apply Hh.
Qed.

Lemma rows_to_dict_origin (rows : list (string * Q)) : forall (m : gmap string Q) key a,
  fold_left (fun m row => <[fst row := snd row]> m) rows m !! key = Some a ->
  In (key, a) rows \/ m !! key = Some a.
Proof.
  induction rows as [|r rows IH]; intros m key a; cbn [fold_left]; [now right|].
  intros H. apply IH in H. destruct H as [H|H]; [left; now right|].
  destruct (decide (fst r = key)) as [<-|Hne].
  - rewrite lookup_insert_eq in H. injection H as <-. left. left. now destruct r.
  - rewrite lookup_insert_ne in H by assumption. now right.
Qed.

Lemma interest_loop_nonneg cs all_payments target_period_start simulation_end_date :
  (forall q, (0 <= get_effective_rate_on_date q cs)%Q) ->
  (forall key a, all_payments !! key = Some a -> (0 <= a)%Q) ->
  forall fuel s v,
    (0 <= current_balance s)%Q ->
    (0 <= interest_for_target_period s)%Q ->
    interest_loop fuel cs all_payments target_period_start simulation_end_date s = Ok v ->
    (0 <= v)%Q.
Proof.
  intros Hrate Hpay. induction fuel as [|fuel IH]; intros s v Hb Hi;
    cbn [interest_loop]; [discriminate|].
  destruct (date_ltb (iter_date s) simulation_end_date); [|now intros [= <-]].
  unfold simulate_day, capitalize.
  assert (Hdep : forall b, (0 <= b)%Q ->
            (0 <= match all_payments !! toString (iter_date s) yyyy_MM_dd with
                  | Some payment => b + payment
                  | None => b
                  end)%Q).
  { intros b Hb0. destruct (all_payments !! _) as [p|] eqn:E; [|assumption].
    pose proof (Hpay _ _ E). lra. }
  destruct (Qgtb (current_balance s) 0) eqn:Eb.
  - unfold daily_interest_of, py_div.
    destruct (Qeq_bool (inject_Z (daysInYear (iter_date s))) 0) eqn:Ez;
      cbn [bind]; [discriminate|].
    assert (Hdi : (0 <= current_balance s * get_effective_rate_on_date (iter_date s) cs
                        / 100 / inject_Z (daysInYear (iter_date s)))%Q).
    { assert (0 < inject_Z (daysInYear (iter_date s)))%Q.
      { assert (Hne : ~ (inject_Z (daysInYear (iter_date s)) == 0)%Q)
          by (intros Hz; apply Qeq_bool_iff in Hz; congruence).
        assert (0 <= daysInYear (iter_date s))
          by (destruct (iter_date s) as [|? ? ?]; simpl;
              [lia | destruct (isLeapYear _); lia]).
        change 0%Q with (inject_Z 0). rewrite <- Zlt_Qlt.
        destruct (Z.eq_dec (daysInYear (iter_date s)) 0) as [H0|]; [|lia].
        exfalso. apply Hne. now rewrite H0. }
      apply Qle_shift_div_l; [assumption|]. rewrite Qmult_0_l.
      apply Qle_shift_div_l; [reflexivity|]. rewrite Qmult_0_l.
      apply Qmult_le_0_compat; [assumption|apply Hrate]. }
    apply IH; cbn [deposit_and_advance current_balance interest_for_target_period].
    + apply Hdep. lra.
    + destruct (date_geb _ _); lra.
  - cbn [bind]. apply IH; cbn [deposit_and_advance current_balance interest_for_target_period];
      [now apply Hdep|assumption].
Qed.

(** X8: With rates and deposits that are not negative, the interest of a
    month is not negative. *)
Theorem monthly_interest_nonneg
    (fuel : nat) (today : QDate) (db : database) (y m : Z) (v : Q) :
  let cs := get_contract_settings today db in
  (0 <= initial_rate cs)%Q ->
  (forall rc, In rc (rate_history cs) -> (0 <= rate rc)%Q) ->
  (forall row, In row (daily_data db) -> (0 <= snd row)%Q) ->
  calculate_monthly_interest fuel today db y m = Ok v ->
  (0 <= v)%Q.
Proof.
  intros cs Hi Hh Hrows. unfold calculate_monthly_interest. fold cs.
  destruct (date_leb _ _); [intros [= <-]; apply Qle_refl|].
  destruct (date_geb _ _); [intros [= <-]; apply Qle_refl|].
  apply interest_loop_nonneg; cbn [current_balance interest_for_target_period];
    try apply Qle_refl.
  - intros q. now apply effective_rate_nonneg.
  - intros key a Ha. unfold get_all_daily_data in Ha.
    apply rows_to_dict_origin in Ha. rewrite lookup_empty in Ha.
    destruct Ha as [Hin|Hin]; [|discriminate]. exact (Hrows _ Hin).
Qed.

(** ** The balance on a date *)

Lemma date_leb_trans a b c :
  date_leb a b = true -> date_leb b c = true -> date_leb a c = true.
Proof. intros. date_order. Qed.

Lemma date_leb_after_start a b c :
  date_ltb a c = false -> date_leb a b = true -> date_ltb b c = false.
Proof. intros. date_order. Qed.

Lemma balance_day_ge cs daily_data s :
  (forall q, (0 <= get_effective_rate_on_date q cs)%Q) ->
  (0 <= bal_amount s)%Q ->
  (bal_amount s <= bal_amount (balance_day cs daily_data s))%Q.
Proof.
  intros Hrate Hb. unfold balance_day. cbn [bal_amount].
  set (b1 := if Qgtb (bal_amount s) 0 then _ else _).
  assert (H1 : (bal_amount s <= b1)%Q).
  { subst b1. destruct (Qgtb (bal_amount s) 0); [|apply Qle_refl].
    assert (0 <= bal_amount s
                 * (get_effective_rate_on_date (bal_date s) cs / 365) / 100)%Q.
    { apply Qle_shift_div_l; [reflexivity|]. rewrite Qmult_0_l.
      apply Qmult_le_0_compat; [assumption|].
      apply Qle_shift_div_l; [reflexivity|]. rewrite Qmult_0_l. apply Hrate. }
    lra. }
  destruct (daily_data !! _) as [payment|]; [|assumption].
  destruct (Qgtb payment 0) eqn:Ep; [|assumption].
  apply Qgtb_true in Ep. lra.
Qed.

Lemma balance_loop_ge cs daily_data d :
  (forall q, (0 <= get_effective_rate_on_date q cs)%Q) ->
  forall fuel s b,
    (0 <= bal_amount s)%Q ->
    balance_loop fuel cs daily_data d s = Ok b ->
    (bal_amount s <= b)%Q.
Proof.
  intros Hrate. induction fuel as [|fuel IH]; intros s b Hb; cbn [balance_loop];
    [discriminate|].
  destruct (date_leb (bal_date s) d); [|intros [= <-]; apply Qle_refl].
  intros H. pose proof (balance_day_ge cs daily_data s Hrate Hb) as Hstep.
  apply IH in H; lra.
Qed.

Lemma balance_loop_mono cs daily_data d d' :
  (forall q, (0 <= get_effective_rate_on_date q cs)%Q) ->
  date_leb d d' = true ->
  forall fuel fuel' s b b',
    (0 <= bal_amount s)%Q ->
    balance_loop fuel cs daily_data d s = Ok b ->
    balance_loop fuel' cs daily_data d' s = Ok b' ->
    (b <= b')%Q.
Proof.
  intros Hrate Hdd. induction fuel as [|fuel IH]; intros fuel' s b b' Hb;
    cbn [balance_loop]; [discriminate|].
  destruct (date_leb (bal_date s) d) eqn:E.
  - destruct fuel' as [|fuel']; cbn [balance_loop]; [discriminate|].
    rewrite (date_leb_trans _ _ _ E Hdd).
    apply IH. pose proof (balance_day_ge cs daily_data s Hrate Hb). lra.
  - intros [= <-]. now apply balance_loop_ge.
Qed.

Lemma balance_loop_total cs daily_data d :
  isValid d = true ->
  forall n fuel s,
    isValid (bal_date s) = true ->
    day_rank d - day_rank (bal_date s) < Z.of_nat n ->
    (n + 1 <= fuel)%nat ->
    exists b, balance_loop fuel cs daily_data d s = Ok b.
Proof.
  intros Hd. induction n as [|n IH]; intros fuel s Hv Hrank Hfuel;
    (destruct fuel as [|fuel]; [lia|]); cbn [balance_loop];
    destruct (date_leb (bal_date s) d) eqn:E; eauto.
  - exfalso. unfold date_leb in E. apply negb_true_iff in E.
    apply day_rank_le in E; trivial. lia.
  - apply IH; [| |lia].
    + unfold balance_day. cbn [bal_date]. now apply addDays_valid.
    + unfold balance_day. cbn [bal_date]. change (addDays 1 (bal_date s))
        with (nextDay (bal_date s)).
      pose proof (day_rank_next (bal_date s) Hv). lia.
Qed.

(** X9: The balance on a date is not negative and does not shrink as the date
    moves on, when no rate is negative; it is 0 before the start of the
    contract. *)
Theorem balance_grows_with_date
    (fuel : nat) (today : QDate) (db : database) (d d' : QDate) :
  let cs := get_contract_settings today db in
  isValid (start_date cs) = true ->
  isValid d = true ->
  isValid d' = true ->
  date_leb d d' = true ->
  (0 <= initial_rate cs)%Q ->
  (forall rc, In rc (rate_history cs) -> (0 <= rate rc)%Q) ->
  (Z.to_nat (day_rank d' - day_rank (start_date cs) + 1) + 1 <= fuel)%nat ->
  (date_ltb d (start_date cs) = true ->
   _get_total_balance_on_date fuel today db d = Ok 0%Q)
  /\ exists b b',
       _get_total_balance_on_date fuel today db d = Ok b
       /\ _get_total_balance_on_date fuel today db d' = Ok b'
       /\ (0 <= b)%Q /\ (b <= b')%Q.
Proof.
  intros cs Hs Hd Hd' Hdd Hi Hh Hfuel.
  assert (Hrate : forall q, (0 <= get_effective_rate_on_date q cs)%Q)
    by (intros q; now apply effective_rate_nonneg).
  unfold _get_total_balance_on_date. fold cs.
  split; [now intros ->|].
  set (s0 := {| bal_date := start_date cs; bal_amount := 0 |}).
  assert (Hrank : day_rank d <= day_rank d').
  { apply day_rank_le; trivial. unfold date_leb in Hdd. now apply negb_true_iff in Hdd. }
  assert (Htotal : forall x, isValid x = true -> day_rank x <= day_rank d' ->
            exists b, balance_loop fuel cs (get_all_daily_data db) x s0 = Ok b
                      /\ (0 <= b)%Q).
  { intros x Hx Hxr.
    destruct (balance_loop_total cs (get_all_daily_data db) x Hx
                (Z.to_nat (day_rank d' - day_rank (start_date cs) + 1)) fuel s0)
      as [b Hb]; trivial; [cbn [s0 bal_date]; lia|].
    exists b. split; [assumption|].
    apply (balance_loop_ge cs (get_all_daily_data db) x Hrate fuel s0 b);
      [apply Qle_refl|assumption]. }
  destruct (date_ltb d (start_date cs)) eqn:E.
  - exists 0%Q. destruct (date_ltb d' (start_date cs)).
    + exists 0%Q. repeat split; apply Qle_refl.
    + destruct (Htotal d' Hd' ltac:(lia)) as (b' & Hb' & Hpos).
      exists b'. repeat split; trivial. apply Qle_refl.
  - rewrite (date_leb_after_start _ _ _ E Hdd).
    destruct (Htotal d Hd Hrank) as (b & Hb & Hpos).
    destruct (Htotal d' Hd' ltac:(lia)) as (b' & Hb' & _).
    exists b, b'. repeat split; trivial.
    apply (balance_loop_mono cs (get_all_daily_data db) d d' Hrate Hdd fuel fuel s0 b b');
      trivial. apply Qle_refl.
Qed.

(** ** The order of the rate history *)

Lemma date_leb_antisym a b :
  date_leb a b = true -> date_leb b a = true -> a = b.
Proof.
  unfold date_leb. destruct a as [|y m d], b as [|y' m' d']; simpl; trivial;
    try discriminate.
  intros H1 H2. bool_prop. f_equal; lia.
Qed.

Lemma latest_change_max d l rc :
  latest_change d l = Some rc ->
  In rc l /\ date_leb (change_date rc) d = true
  /\ forall x, In x l -> date_leb (change_date x) d = true ->
               date_leb (change_date x) (change_date rc) = true.
Proof.
  intros H. destruct (latest_change_Some d l rc H) as (pre & post & -> & Hq & Hpre & Hpost).
  split; [apply List.in_app_iff; right; now left|]. split; [assumption|].
  intros x Hx Hxq. apply List.in_app_iff in Hx. destruct Hx as [Hx|[<-|Hx]].
  - now apply Hpre.
  - unfold date_leb. now rewrite date_ltb_irrefl.
  - unfold date_leb. apply negb_true_iff, date_ltb_asym. now apply Hpost.
Qed.

Lemma same_key_same_entry {A B : Type} (f : A -> B) (l : list A) a b :
  List.NoDup (map f l) -> In a l -> In b l -> f a = f b -> a = b.
Proof.
  induction l as [|x l IH]; simpl; [intros _ []|].
  intros Hnd. apply List.NoDup_cons_iff in Hnd. destruct Hnd as [Hx Hnd].
  intros [<-|Ha] [<-|Hb] Hf; trivial.
  - exfalso. apply Hx. rewrite Hf. now apply List.in_map.
  - exfalso. apply Hx. rewrite <- Hf. now apply List.in_map.
  - now apply IH.
Qed.

(** X10: The effective rate does not depend on the order in which the rate
    changes are listed, when no two of them have the same date. *)
Theorem effective_rate_order_irrelevant (d : QDate) (cs cs' : contract_settings) :
  initial_rate cs = initial_rate cs' ->
  Permutation (rate_history cs) (rate_history cs') ->
  List.NoDup (map change_date (rate_history cs)) ->
  get_effective_rate_on_date d cs = get_effective_rate_on_date d cs'.
Proof.
  intros Hinit Hperm Hnd. rewrite !effective_rate_latest_change, Hinit.
  destruct (latest_change d (rate_history cs)) as [rc|] eqn:E.
  - apply latest_change_max in E. destruct E as (Hin & Hq & Hmax).
    destruct (latest_change d (rate_history cs')) as [rc'|] eqn:E'.
    + apply latest_change_max in E'. destruct E' as (Hin' & Hq' & Hmax').
      assert (Hin2 : In rc' (rate_history cs))
        by (apply (Permutation_in _ (Permutation_sym Hperm)); assumption).
      assert (Hin3 : In rc (rate_history cs'))
        by (apply (Permutation_in _ Hperm); assumption).
      f_equal. apply (same_key_same_entry change_date (rate_history cs)); trivial.
      apply date_leb_antisym; [now apply Hmax'|now apply Hmax].
    + exfalso. rewrite latest_change_None in E'.
      rewrite (E' rc) in Hq; [discriminate|].
      apply (Permutation_in _ Hperm); assumption.
  - rewrite latest_change_None in E.
    destruct (latest_change d (rate_history cs')) as [rc'|] eqn:E'; [|reflexivity].
    exfalso. apply latest_change_max in E'. destruct E' as (Hin' & Hq' & _).
    rewrite (E rc') in Hq'; [discriminate|].
    apply (Permutation_in _ (Permutation_sym Hperm)); assumption.
Qed.

(** ** The remaining amount *)

Lemma Qplus_swap (x a b : Q) : (x + a + b = x + b + a)%Q.
Proof.
  destruct x as [xn xd], a as [an ad], b as [bn bd]. unfold Qplus. cbn [Qnum Qden].
  f_equal.
  - rewrite !Pos2Z.inj_mul. ring.
  - rewrite <- !Pos.mul_assoc. f_equal. apply Pos.mul_comm.
Qed.

Lemma sum_values_insert (m : gmap string Q) key a :
  m !! key = None -> sum_values (<[key := a]> m) = (sum_values m + a)%Q.
Proof.
  intros Hnone. unfold sum_values.
  apply (map_fold_insert_L (fun (_ : string) (amount acc : Q) => (acc + amount)%Q));
    [|assumption].
  intros. apply Qplus_swap.
Qed.

Lemma sum_values_nonneg (m : gmap string Q) :
  (forall key a, m !! key = Some a -> (0 <= a)%Q) -> (0 <= sum_values m)%Q.
Proof.
  unfold sum_values.
  apply (map_fold_weak_ind
           (fun r (m : gmap string Q) =>
              (forall key a, m !! key = Some a -> (0 <= a)%Q) -> (0 <= r)%Q)).
  - intros _. apply Qle_refl.
  - intros i x m' r Hnone IH Hall.
    assert (0 <= x)%Q by (apply (Hall i); apply lookup_insert_eq).
    assert (0 <= r)%Q.
    { apply IH. intros key a Hk. apply (Hall key).
      rewrite lookup_insert_ne; [assumption|]. intros ->. congruence. }
    lra.
Qed.

Lemma delete_daily_absent key (rows : list (string * Q)) :
  ~ In key (map fst rows) -> delete_daily key rows = rows.
Proof.
  unfold delete_daily. induction rows as [|r rows IH]; simpl; [reflexivity|].
  intros Hnotin. destruct (String.eqb_spec (fst r) key) as [Hk|Hk]; [tauto|].
  simpl. f_equal. apply IH. tauto.
Qed.

Lemma all_daily_data_new_day d amount db :
  ~ has_entry db d ->
  ~ (amount == 0)%Q ->
  get_all_daily_data (save_daily_amount d amount db)
  = <[toString d yyyy_MM_dd := amount]> (get_all_daily_data db)
  /\ get_all_daily_data db !! toString d yyyy_MM_dd = None.
Proof.
  intros Hno Hnz. unfold has_entry in Hno. split.
  - unfold get_all_daily_data, save_daily_amount. cbn [daily_data].
    destruct (Qeq_bool amount 0) eqn:E; [apply Qeq_bool_iff in E; tauto|].
    rewrite delete_daily_absent by assumption.
    now rewrite fold_left_app.
  - destruct (get_all_daily_data db !! _) as [a|] eqn:E; [|reflexivity].
    exfalso. unfold get_all_daily_data in E. apply rows_to_dict_origin in E.
    rewrite lookup_empty in E. destruct E as [Hin|]; [|discriminate].
    apply Hno. apply List.in_map_iff. now exists (toString d yyyy_MM_dd, a).
Qed.

(** X11: A deposit on a day without an entry lowers the remaining amount of
    the contract by the deposit, and to 0 when the deposit is larger
    than what remained. *)
Theorem deposit_lowers_remaining
    (today d : QDate) (amount : Q) (db : database) :
  let before := get_remaining_contract_amount today db in
  let after := get_remaining_contract_amount today (save_daily_amount d amount db) in
  ~ has_entry db d ->
  (0 < amount)%Q ->
  ((amount <= before)%Q -> (after == before - amount)%Q)
  /\ ((before <= amount)%Q -> (after == 0)%Q).
Proof.
  intros before after Hno Hpos. subst before after.
  assert (Hnz : ~ (amount == 0)%Q) by (intros Hz; rewrite Hz in Hpos; lra).
  destruct (all_daily_data_new_day d amount db Hno Hnz) as [Hdict Hnone].
  unfold get_remaining_contract_amount.
  change (get_contract_settings today (save_daily_amount d amount db))
    with (get_contract_settings today db).
  rewrite Hdict, sum_values_insert by assumption.
  set (A := contract_amount _). set (S := sum_values _).
  unfold py_max0.
  destruct (Qgtb (A - (S + amount)) 0) eqn:E1; destruct (Qgtb (A - S) 0) eqn:E2;
    rewrite ?Qgtb_true, ?Qgtb_false in *; split; intros; lra.
Qed.

(** X12: The remaining amount is never negative, and with deposits that are
    not negative it is at most the amount of the contract. *)
Theorem remaining_within_contract (today : QDate) (db : database) :
  let cs := get_contract_settings today db in
  (0 <= contract_amount cs)%Q ->
  (forall row, In row (daily_data db) -> (0 <= snd row)%Q) ->
  (0 <= get_remaining_contract_amount today db)%Q
  /\ (get_remaining_contract_amount today db <= contract_amount cs)%Q.
Proof.
  intros cs HA Hrows. unfold get_remaining_contract_amount. fold cs.
  assert (HS : (0 <= sum_values (get_all_daily_data db))%Q).
  { apply sum_values_nonneg. intros key a Ha. unfold get_all_daily_data in Ha.
    apply rows_to_dict_origin in Ha. rewrite lookup_empty in Ha.
    destruct Ha as [Hin|]; [|discriminate]. exact (Hrows _ Hin). }
  unfold py_max0. destruct (Qgtb _ 0) eqn:E;
    rewrite ?Qgtb_true, ?Qgtb_false in *; split; lra.
Qed.

(** ** A rate of zero, a contract that has not started, no saved settings *)

Lemma interest_loop_zero_rate cs all_payments target_period_start simulation_end_date :
  (forall q, (get_effective_rate_on_date q cs == 0)%Q) ->
  forall fuel s v,
    (interest_for_target_period s == 0)%Q ->
    interest_loop fuel cs all_payments target_period_start simulation_end_date s = Ok v ->
    (v == 0)%Q.
Proof.
  intros Hrate. induction fuel as [|fuel IH]; intros s v Hi; cbn [interest_loop];
    [discriminate|].
  destruct (date_ltb (iter_date s) simulation_end_date); [|now intros [= <-]].
  unfold simulate_day, capitalize.
  destruct (Qgtb (current_balance s) 0).
  - unfold daily_interest_of, py_div.
    destruct (Qeq_bool (inject_Z (daysInYear (iter_date s))) 0); cbn [bind];
      [discriminate|].
    apply IH. cbn [deposit_and_advance interest_for_target_period].
    destruct (date_geb _ _); [|assumption].
    rewrite Hi, (Hrate (iter_date s)). unfold Qdiv. ring.
  - cbn [bind]. apply IH. exact Hi.
Qed.

(** X13: With a rate of zero at the start and in every rate change, the
    interest of every month is zero, whatever was deposited. *)
Theorem zero_rate_no_interest
    (fuel : nat) (today : QDate) (db : database) (y m : Z) (v : Q) :
  let cs := get_contract_settings today db in
  (initial_rate cs == 0)%Q ->
  (forall rc, In rc (rate_history cs) -> (rate rc == 0)%Q) ->
  calculate_monthly_interest fuel today db y m = Ok v ->
  (v == 0)%Q.
Proof.
  intros cs Hi Hh. unfold calculate_monthly_interest. fold cs.
  destruct (date_leb _ _); [now intros [= <-]|].
  destruct (date_geb _ _); [now intros [= <-]|].
  apply interest_loop_zero_rate; [|reflexivity].
  intros q. rewrite effective_rate_latest_change.
  destruct (latest_change q (rate_history cs)) as [rc|] eqn:E; [|assumption].
  apply latest_change_origin in E. now apply Hh.
Qed.

Lemma date_min_not_after a x today :
  date_leb today a = true -> date_ltb a (date_min x today) = false.
Proof.
  unfold date_min. destruct (date_ltb today x) eqn:E; intros H; date_order.
Qed.

(** X14: As long as today is not after the start of the contract, the
    interest of every month is 0. *)
Theorem interest_zero_until_start
    (fuel : nat) (today : QDate) (db : database) (y m : Z) :
  date_leb today (start_date (get_contract_settings today db)) = true ->
  (1 <= fuel)%nat ->
  calculate_monthly_interest fuel today db y m = Ok 0%Q.
Proof.
  intros Hle Hfuel. unfold calculate_monthly_interest.
  destruct (date_leb (accrual_date_of _ _ _) _); [reflexivity|].
  destruct (date_geb _ _); [reflexivity|].
  destruct fuel as [|fuel]; [lia|]. cbn [interest_loop iter_date].
  unfold simulation_end_date_of. now rewrite date_min_not_after.
Qed.

(** X15: Without saved settings the contract runs from today for one year:
    the end date is a valid date after today, twelve months are counted,
    and the plan is empty. *)
Theorem settings_default_one_year (fuel : nat) (today : QDate) (db : database) :
  let cs := get_contract_settings today db in
  settings_table db = [] ->
  isValid today = true ->
  1 <= year today ->
  start_date cs = today
  /\ isValid (end_date cs) = true
  /\ date_ltb today (end_date cs) = true
  /\ year (end_date cs) = year today + 1
  /\ month (end_date cs) = month today
  /\ day (end_date cs) <= day today
  /\ _get_months_between_dates_including_start_excluding_end today (end_date cs) = 12
  /\ calculate_monthly_plans fuel today db = Ok ∅.
Proof.
  intros cs Hempty Hv Hy.
  assert (Hcs : cs = {| start_date := today; end_date := addYears 1 today;
                        initial_rate := 0; rate_history := []; contract_amount := 0 |}).
  { subst cs. unfold get_contract_settings. now rewrite Hempty. }
  assert (Hplan : calculate_monthly_plans fuel today db = Ok ∅).
  { unfold calculate_monthly_plans. fold cs. now rewrite Hcs. }
  rewrite Hcs. cbn [start_date end_date]. clear Hcs cs.
  destruct today as [|y m d]; [discriminate|]. cbn [year month day] in *.
  unfold addYears. rewrite Hv. simpl negb. cbv iota.
  simpl in Hv. apply validYMD_iff in Hv.
  replace ((0 <? y) && (y + 1 <=? 0)) with false by (symmetry; bool_prop; lia).
  replace ((y <? 0) && (0 <=? y + 1)) with false by (symmetry; bool_prop; lia).
  pose proof (monthDays_ge_28 (y + 1) m ltac:(lia)) as Hmd.
  unfold fixedDate. rewrite mkQDate_valid by (apply validYMD_iff; lia).
  unfold _get_months_between_dates_including_start_excluding_end.
  cbn [year month day isValid date_ltb].
  split; [reflexivity|]. split; [apply validYMD_iff; lia|].
  split; [bool_prop; lia|]. split; [reflexivity|]. split; [reflexivity|].
  split; [lia|]. split; [lia|exact Hplan].
Qed.

(** ** More instances *)

Lemma daily_amount_read_back_witness :
  get_daily_amount (Date 2024 2 5)
    (save_daily_amount (Date 2024 2 5) 100 init_database) = 100%Q.
Proof.
  apply (proj1 (proj2 (daily_amount_read_back (Date 2024 2 5) 100 init_database))).
  by_computation.
Defined.

Lemma daily_amount_other_day_witness :
  get_daily_amount (Date 2024 1 10)
    (save_daily_amount (Date 2024 2 5) 100 overpaid_db)
  = get_daily_amount (Date 2024 1 10) overpaid_db.
Proof.
  apply daily_amount_other_day; [reflexivity | reflexivity | discriminate].
Defined.

Lemma all_daily_data_agrees_witness :
  get_daily_amount (Date 2024 2 5)
    (apply_writes [(Date 2024 2 5, 100%Q)] init_database) = 100%Q.
Proof.
  pose proof (all_daily_data_agrees [(Date 2024 2 5, 100%Q)] (Date 2024 2 5)) as H.
  cbv zeta in H. destruct H as (_ & H & _). apply H. vm_compute. reflexivity.
Defined.

Lemma monthly_plan_read_back_witness :
  get_monthly_plan "2024-02" (save_monthly_plan "2024-01" 100 [("2024-02"%string, 50%Q)])
  = get_monthly_plan "2024-02" [("2024-02"%string, 50%Q)].
Proof.
  apply (proj1 (proj2 (monthly_plan_read_back "2024-01" "2024-02" 100
                         [("2024-02"%string, 50%Q)]))).
  discriminate.
Defined.

Lemma plan_entries_and_month_helpers_witness :
  exists plans,
    calculate_monthly_plans 20 NullDate paid_up_db = Ok plans
    /\ Z.of_nat (size plans) = 12.
Proof.
  destruct (plan_entries_and_month_helpers 20 NullDate paid_up_db)
    as (plans & Hcalc & Hsize & _); [by_computation .. |].
  exists plans. split; [exact Hcalc|].
  etransitivity; [exact Hsize|]. vm_compute. reflexivity.
Defined.

Lemma adjusted_plan_of_month_witness :
  get_adjusted_monthly_plan 20 NullDate paid_up_db 2025 1 = Ok 0%Q.
Proof.
  destruct (adjusted_plan_of_month 20 NullDate paid_up_db 2025 1)
    as (plans & _ & _ & _ & Hend); [by_computation .. |].
  apply Hend; vm_compute; reflexivity.
Defined.

Lemma no_deposit_no_interest_witness :
  calculate_monthly_interest 400 (Date 2024 3 10) three_percent_db 2024 2 = Ok 0%Q
  /\ get_total_accumulated_interest 400 (Date 2024 3 10) three_percent_db
       (Some (Date 2024 3 10)) = Ok 0%Q.
Proof.
  destruct (no_deposit_no_interest 400 (Date 2024 3 10) three_percent_db 2024 2
              (Date 2024 3 10)) as [Hmonth Htotal]; [by_computation .. |].
  split; [apply Hmonth | apply Htotal]; by_computation.
Defined.

Lemma monthly_interest_nonneg_witness :
  (0 <= value_of (calculate_monthly_interest 40 (Date 2024 1 12) overpaid_db 2024 2))%Q.
Proof.
  apply (monthly_interest_nonneg 40 (Date 2024 1 12) overpaid_db 2024 2).
  - by_computation.
  - intros rc [].
  - intros row [<-|[]]. by_computation.
  - vm_compute. reflexivity.
Defined.

Lemma balance_grows_with_date_witness :
  exists b b',
    _get_total_balance_on_date 20 NullDate three_percent_deposit_db (Date 2024 1 2) = Ok b
    /\ _get_total_balance_on_date 20 NullDate three_percent_deposit_db (Date 2024 1 4)
       = Ok b'
    /\ (0 <= b)%Q /\ (b <= b')%Q.
Proof.
  refine (proj2 (balance_grows_with_date 20 NullDate three_percent_deposit_db
                   (Date 2024 1 2) (Date 2024 1 4) _ _ _ _ _ _ _)).
  - reflexivity.
  - reflexivity.
  - reflexivity.
  - reflexivity.
  - by_computation.
  - intros rc [].
  - by_computation.
Defined.

Lemma effective_rate_order_irrelevant_witness :
  get_effective_rate_on_date (Date 2023 3 1) (example_rates NullDate NullDate 0)
  = get_effective_rate_on_date (Date 2023 3 1) (example_rates_swapped NullDate NullDate 0).
Proof.
  apply effective_rate_order_irrelevant.
  - reflexivity.
  - apply perm_swap.
  - constructor; [intros [H|[]]; discriminate H|].
    constructor; [intros []|constructor].
Defined.

Lemma deposit_lowers_remaining_witness :
  (get_remaining_contract_amount NullDate
     (save_daily_amount (Date 2024 2 5) 500 paid_up_db)
   == get_remaining_contract_amount NullDate paid_up_db - 500)%Q.
Proof.
  refine (proj1 (deposit_lowers_remaining NullDate (Date 2024 2 5) 500 paid_up_db _ _) _).
  - intros [].
  - reflexivity.
  - by_computation.
Defined.

Lemma remaining_within_contract_witness :
  (0 <= get_remaining_contract_amount NullDate overpaid_db)%Q
  /\ (get_remaining_contract_amount NullDate overpaid_db <= 1200)%Q.
Proof.
  apply (remaining_within_contract NullDate overpaid_db).
  - by_computation.
  - intros row [<-|[]]. by_computation.
Defined.

Lemma zero_rate_no_interest_witness :
  (value_of (calculate_monthly_interest 40 (Date 2024 1 12) overpaid_db 2024 2) == 0)%Q.
Proof.
  apply (zero_rate_no_interest 40 (Date 2024 1 12) overpaid_db 2024 2).
  - reflexivity.
  - intros rc [].
  - vm_compute. reflexivity.
Defined.

Lemma interest_zero_until_start_witness :
  calculate_monthly_interest 1 (Date 2024 1 15) sample_db 2024 3 = Ok 0%Q.
Proof.
  apply interest_zero_until_start; [reflexivity | lia].
Defined.

Lemma settings_default_one_year_witness :
  end_date (get_contract_settings (Date 2024 2 29) init_database) = Date 2025 2 28
  /\ _get_months_between_dates_including_start_excluding_end (Date 2024 2 29)
       (end_date (get_contract_settings (Date 2024 2 29) init_database)) = 12.
Proof.
  destruct (settings_default_one_year 0 (Date 2024 2 29) init_database)
    as (_ & _ & _ & _ & _ & _ & Hmonths & _); [reflexivity | reflexivity | simpl; lia |].
  split; [reflexivity | exact Hmonths].
Defined.
